(** * MicroService operator: the Reconcile pass of the controller

    A shallow embedding of [MicroServiceReconciler.Reconcile]
    (package [controllers]) and of the Kubernetes objects it builds.

    The reconciler talks to the cluster through the embedded
    [client.Client].  A pass is embedded as a finite tree of client calls
    ([Prog]); the tree is run against any implementation of the client
    interface ([Client]), which yields the returned [(ctrl.Result, error)]
    pair, the list of calls that were issued with the error each call
    returned, and the final state of the client.  Logger calls do not reach
    the store and are left out of the tree.

    The sources hold three stages of the same controller file: the
    scaffold whose [Reconcile] returns at once, a stage that creates the
    Deployment only, and the complete stage that creates the Deployment,
    the Service and the Ingress.  The embedding follows the complete
    stage. *)

From Stdlib Require Import ZArith.
From stdpp Require Import gmap strings list fin_maps.

Open Scope string_scope.
Open Scope Z_scope.

(* ===================================================================== *)
(** ** Errors of the API machinery *)
(* ===================================================================== *)

(** [metav1.StatusReason]: the reasons the claims distinguish. *)
Inductive StatusReason : Type :=
| StatusReasonNotFound
| StatusReasonAlreadyExists
| StatusReasonConflict
| StatusReasonServiceUnavailable
| StatusReasonTimeout
| StatusReasonInvalid
| StatusReasonForbidden
| StatusReasonInternalError.

(** A non-nil Go [error] returned by the client: an API status error.
    The nil error is [None] of [option Error]. *)
Record Error : Type := {
  Error_Reason : StatusReason;
  Error_Message : string
}.

(** [apierrors.IsNotFound]. *)
Definition IsNotFound (err : option Error) : bool :=
  match err with
  | Some e =>
      match Error_Reason e with
      | StatusReasonNotFound => true
      | _ => false
      end
  | None => false
  end.

(** [client.IgnoreNotFound]: nil on a not-found error, every other value
    (nil included) unmodified. *)
Definition IgnoreNotFound (err : option Error) : option Error :=
  if IsNotFound err then None else err.

(* ===================================================================== *)
(** ** Kubernetes object types, with the fields the controller sets

    Go field [F] of struct [T] is the projection [T_F]. *)
(* ===================================================================== *)

Record NamespacedName : Type := {
  NamespacedName_Namespace : string;
  NamespacedName_Name : string
}.

(** [ctrl.Request] embeds the [NamespacedName], so that [req.Name] and
    [req.Namespace] are the promoted fields. *)
Record Request : Type := { Request_NamespacedName : NamespacedName }.

Definition Request_Name (req : Request) : string :=
  NamespacedName_Name (Request_NamespacedName req).

Definition Request_Namespace (req : Request) : string :=
  NamespacedName_Namespace (Request_NamespacedName req).

(** [ctrl.Result]. *)
Record Result : Type := {
  Result_Requeue : bool;
  Result_RequeueAfter : Z
}.

(** The composite literal [ctrl.Result{}]. *)
Definition Result_zero : Result :=
  {| Result_Requeue := false; Result_RequeueAfter := 0 |}.

Record TypeMeta : Type := {
  TypeMeta_Kind : string;
  TypeMeta_APIVersion : string
}.

Record OwnerReference : Type := {
  OwnerReference_APIVersion : string;
  OwnerReference_Kind : string;
  OwnerReference_Name : string;
  OwnerReference_UID : string
}.

Record ObjectMeta : Type := {
  ObjectMeta_Name : string;
  ObjectMeta_Namespace : string;
  ObjectMeta_Labels : gmap string string;
  ObjectMeta_OwnerReferences : list OwnerReference;
  ObjectMeta_Generation : Z
}.

Record LabelSelector : Type := {
  LabelSelector_MatchLabels : gmap string string
}.

Record LocalObjectReference : Type := { LocalObjectReference_Name : string }.

Record ContainerPort : Type := { ContainerPort_ContainerPort : Z }.

Record Container : Type := {
  Container_Name : string;
  Container_Image : string;
  Container_ImagePullPolicy : string;
  Container_Ports : list ContainerPort
}.

Record PodSpec : Type := {
  PodSpec_ImagePullSecrets : list LocalObjectReference;
  PodSpec_Containers : list Container
}.

Record PodTemplateSpec : Type := {
  PodTemplateSpec_ObjectMeta : ObjectMeta;
  PodTemplateSpec_Spec : PodSpec
}.

Record DeploymentSpec : Type := {
  DeploymentSpec_Selector : option LabelSelector;
  DeploymentSpec_Template : PodTemplateSpec
}.

Record Deployment : Type := {
  Deployment_TypeMeta : TypeMeta;
  Deployment_ObjectMeta : ObjectMeta;
  Deployment_Spec : DeploymentSpec
}.

(** [intstr.IntOrString], built by [intstr.FromInt] or
    [intstr.FromString]. *)
Inductive IntOrString : Type :=
| FromInt (val : Z)
| FromString (val : string).

(** [corev1.ProtocolTCP]. *)
Definition ProtocolTCP : string := "TCP".

Record ServicePort : Type := {
  ServicePort_Name : string;
  ServicePort_Port : Z;
  ServicePort_TargetPort : IntOrString;
  ServicePort_Protocol : string
}.

Record ServiceSpec : Type := {
  ServiceSpec_Selector : gmap string string;
  ServiceSpec_Ports : list ServicePort
}.

Record Service : Type := {
  Service_TypeMeta : TypeMeta;
  Service_ObjectMeta : ObjectMeta;
  Service_Spec : ServiceSpec
}.

Record IngressBackend : Type := {
  IngressBackend_ServiceName : string;
  IngressBackend_ServicePort : IntOrString
}.

Record HTTPIngressPath : Type := {
  HTTPIngressPath_Path : string;
  HTTPIngressPath_Backend : IngressBackend
}.

Record HTTPIngressRuleValue : Type := {
  HTTPIngressRuleValue_Paths : list HTTPIngressPath
}.

(** [IngressRuleValue] is embedded in the rule; its only field is the
    [HTTP] pointer. *)
Record IngressRule : Type := {
  IngressRule_Host : string;
  IngressRule_HTTP : option HTTPIngressRuleValue
}.

Record IngressSpec : Type := { IngressSpec_Rules : list IngressRule }.

Record Ingress : Type := {
  Ingress_TypeMeta : TypeMeta;
  Ingress_ObjectMeta : ObjectMeta;
  Ingress_Spec : IngressSpec
}.

(** Modelled from the spec: the [devopsv1.MicroService] type declaration
    (package [api/v1]) is not part of the sources.  The spec gives its
    schema as [{name, namespace, image, host, secret}] with status
    [{condition: Ready|Progressing|Error, message, observedGeneration}];
    the controller reads [Spec.Image], [Spec.Host] and [Spec.Secret] as
    strings. *)
Inductive Condition : Type :=
| ConditionReady
| ConditionProgressing
| ConditionError.

Record MicroServiceSpec : Type := {
  MicroServiceSpec_Image : string;
  MicroServiceSpec_Host : string;
  MicroServiceSpec_Secret : string
}.

Record MicroServiceStatus : Type := {
  MicroServiceStatus_Condition : option Condition;
  MicroServiceStatus_Message : string;
  MicroServiceStatus_ObservedGeneration : Z
}.

Record MicroService : Type := {
  MicroService_ObjectMeta : ObjectMeta;
  MicroService_Spec : MicroServiceSpec;
  MicroService_Status : MicroServiceStatus
}.

(** A dependent object handed to [Create]: the Go argument is a
    [runtime.Object], here one of the three kinds the controller builds. *)
Inductive Object : Type :=
| ObjDeployment (d : Deployment)
| ObjService (s : Service)
| ObjIngress (i : Ingress).

Definition objectMeta (o : Object) : ObjectMeta :=
  match o with
  | ObjDeployment d => Deployment_ObjectMeta d
  | ObjService s => Service_ObjectMeta s
  | ObjIngress i => Ingress_ObjectMeta i
  end.

(** Decidable equality of the data, for the store model and for deciding
    concrete facts. *)
#[global] Instance StatusReason_eq_dec : EqDecision StatusReason.
Proof. solve_decision. Defined.
#[global] Instance Error_eq_dec : EqDecision Error.
Proof. solve_decision. Defined.
#[global] Instance NamespacedName_eq_dec : EqDecision NamespacedName.
Proof. solve_decision. Defined.
#[global] Instance OwnerReference_eq_dec : EqDecision OwnerReference.
Proof. solve_decision. Defined.
#[global] Instance ObjectMeta_eq_dec : EqDecision ObjectMeta.
Proof. solve_decision. Defined.
#[global] Instance TypeMeta_eq_dec : EqDecision TypeMeta.
Proof. solve_decision. Defined.
#[global] Instance LabelSelector_eq_dec : EqDecision LabelSelector.
Proof. solve_decision. Defined.
#[global] Instance LocalObjectReference_eq_dec :
  EqDecision LocalObjectReference.
Proof. solve_decision. Defined.
#[global] Instance ContainerPort_eq_dec : EqDecision ContainerPort.
Proof. solve_decision. Defined.
#[global] Instance Container_eq_dec : EqDecision Container.
Proof. solve_decision. Defined.
#[global] Instance PodSpec_eq_dec : EqDecision PodSpec.
Proof. solve_decision. Defined.
#[global] Instance PodTemplateSpec_eq_dec : EqDecision PodTemplateSpec.
Proof. solve_decision. Defined.
#[global] Instance DeploymentSpec_eq_dec : EqDecision DeploymentSpec.
Proof. solve_decision. Defined.
#[global] Instance Deployment_eq_dec : EqDecision Deployment.
Proof. solve_decision. Defined.
#[global] Instance IntOrString_eq_dec : EqDecision IntOrString.
Proof. solve_decision. Defined.
#[global] Instance ServicePort_eq_dec : EqDecision ServicePort.
Proof. solve_decision. Defined.
#[global] Instance ServiceSpec_eq_dec : EqDecision ServiceSpec.
Proof. solve_decision. Defined.
#[global] Instance Service_eq_dec : EqDecision Service.
Proof. solve_decision. Defined.
#[global] Instance IngressBackend_eq_dec : EqDecision IngressBackend.
Proof. solve_decision. Defined.
#[global] Instance HTTPIngressPath_eq_dec : EqDecision HTTPIngressPath.
Proof. solve_decision. Defined.
#[global] Instance HTTPIngressRuleValue_eq_dec :
  EqDecision HTTPIngressRuleValue.
Proof. solve_decision. Defined.
#[global] Instance IngressRule_eq_dec : EqDecision IngressRule.
Proof. solve_decision. Defined.
#[global] Instance IngressSpec_eq_dec : EqDecision IngressSpec.
Proof. solve_decision. Defined.
#[global] Instance Ingress_eq_dec : EqDecision Ingress.
Proof. solve_decision. Defined.
#[global] Instance Object_eq_dec : EqDecision Object.
Proof. solve_decision. Defined.
#[global] Instance MicroServiceSpec_eq_dec : EqDecision MicroServiceSpec.
Proof. solve_decision. Defined.

(* ===================================================================== *)
(** ** The objects built by one pass (the composite literals of
       [Reconcile]) *)
(* ===================================================================== *)

(** [podLabels := map[string]string{"app": req.Name}]. *)
Definition podLabels (req : Request) : gmap string string :=
  {[ "app" := Request_Name req ]}.

(** The local [deployment]; fields the literal leaves out hold their zero
    values (nil map, nil slice, 0). *)
Definition deployment (req : Request) (ms : MicroService) : Deployment :=
  {| Deployment_TypeMeta :=
       {| TypeMeta_Kind := "Deployment"; TypeMeta_APIVersion := "apps/v1" |};
     Deployment_ObjectMeta :=
       {| ObjectMeta_Name := Request_Name req;
          ObjectMeta_Namespace := Request_Namespace req;
          ObjectMeta_Labels := ∅;
          ObjectMeta_OwnerReferences := [];
          ObjectMeta_Generation := 0 |};
     Deployment_Spec :=
       {| DeploymentSpec_Selector :=
            Some {| LabelSelector_MatchLabels := podLabels req |};
          DeploymentSpec_Template :=
            {| PodTemplateSpec_ObjectMeta :=
                 {| ObjectMeta_Name := "";
                    ObjectMeta_Namespace := "";
                    ObjectMeta_Labels := podLabels req;
                    ObjectMeta_OwnerReferences := [];
                    ObjectMeta_Generation := 0 |};
               PodTemplateSpec_Spec :=
                 {| PodSpec_ImagePullSecrets :=
                      [ {| LocalObjectReference_Name :=
                             MicroServiceSpec_Secret (MicroService_Spec ms) |} ];
                    PodSpec_Containers :=
                      [ {| Container_Name := Request_Name req;
                           Container_Image :=
                             MicroServiceSpec_Image (MicroService_Spec ms);
                           Container_ImagePullPolicy := "Always";
                           Container_Ports :=
                             [ {| ContainerPort_ContainerPort := 8080 |} ]
                        |} ]
                 |}
            |}
       |}
  |}.

(** The local [service]. *)
Definition service (req : Request) : Service :=
  {| Service_TypeMeta :=
       {| TypeMeta_Kind := "Service"; TypeMeta_APIVersion := "v1" |};
     Service_ObjectMeta :=
       {| ObjectMeta_Name := Request_Name req;
          ObjectMeta_Namespace := Request_Namespace req;
          ObjectMeta_Labels := ∅;
          ObjectMeta_OwnerReferences := [];
          ObjectMeta_Generation := 0 |};
     Service_Spec :=
       {| ServiceSpec_Selector := podLabels req;
          ServiceSpec_Ports :=
            [ {| ServicePort_Name := Request_Name req;
                 ServicePort_Port := 80;
                 ServicePort_TargetPort := FromInt 8080;
                 ServicePort_Protocol := ProtocolTCP |} ]
       |}
  |}.

(** The local [ingress]. *)
Definition ingress (req : Request) (ms : MicroService) : Ingress :=
  {| Ingress_TypeMeta :=
       {| TypeMeta_Kind := "Ingress"; TypeMeta_APIVersion := "v1" |};
     Ingress_ObjectMeta :=
       {| ObjectMeta_Name := Request_Name req;
          ObjectMeta_Namespace := Request_Namespace req;
          ObjectMeta_Labels := ∅;
          ObjectMeta_OwnerReferences := [];
          ObjectMeta_Generation := 0 |};
     Ingress_Spec :=
       {| IngressSpec_Rules :=
            [ {| IngressRule_Host :=
                   MicroServiceSpec_Host (MicroService_Spec ms);
                 IngressRule_HTTP :=
                   Some {| HTTPIngressRuleValue_Paths :=
                             [ {| HTTPIngressPath_Path := "/";
                                  HTTPIngressPath_Backend :=
                                    {| IngressBackend_ServiceName :=
                                         Request_Name req;
                                       IngressBackend_ServicePort :=
                                         FromInt 80 |}
                               |} ]
                        |}
              |} ]
       |}
  |}.

(* ===================================================================== *)
(** ** The client interface and programs over it *)
(* ===================================================================== *)

(** The calls of [client.Client] on the kinds of this controller, indexed
    by what the call hands back: [Get] fills the object in or returns an
    error, the writing calls return an error or nil. *)
Inductive Op : Type → Type :=
| Get (key : NamespacedName) : Op (Error + MicroService)
| Create (obj : Object) : Op (option Error)
| Update (obj : Object) : Op (option Error)
| Delete (obj : Object) : Op (option Error)
| StatusUpdate (ms : MicroService) : Op (option Error).

(** A pass of the reconciler: return, or issue a call and go on with what
    the client hands back. *)
Inductive Prog (A : Type) : Type :=
| Ret (a : A)
| Vis {T : Type} (op : Op T) (k : T → Prog A).

Arguments Ret {A} a.
Arguments Vis {A T} op k.

Fixpoint Prog_bind {A B : Type} (f : A → Prog B) (p : Prog A) : Prog B :=
  match p with
  | Ret a => f a
  | Vis op k => Vis op (λ r, Prog_bind f (k r))
  end.

#[global] Instance Prog_mret : MRet Prog := λ A a, Ret a.
#[global] Instance Prog_mbind : MBind Prog := λ A B f p, Prog_bind f p.

(** Issue one call. *)
Definition call {T : Type} (op : Op T) : Prog T := Vis op Ret.

(** The pass of [MicroServiceReconciler.Reconcile].

    The inner [if err := client.IgnoreNotFound(err); err != nil] declares a
    new [err] whose scope covers both branches, so the [else] branch returns
    that inner [err], which is nil there. *)
Definition Reconcile (req : Request) : Prog (Result * option Error) :=
  got ← call (Get (Request_NamespacedName req));
  match got with
  | inl err =>
      let err := IgnoreNotFound (Some err) in
      match err with
      | Some _ => mret (Result_zero, None)
      | None => mret (Result_zero, err)
      end
  | inr ms =>
      err ← call (Create (ObjDeployment (deployment req ms)));
      match err with
      | Some _ => mret (Result_zero, None)
      | None =>
          err ← call (Create (ObjService (service req)));
          match err with
          | Some _ => mret (Result_zero, err)
          | None =>
              err ← call (Create (ObjIngress (ingress req ms)));
              match err with
              | Some _ => mret (Result_zero, None)
              | None => mret (Result_zero, None)
              end
          end
      end
  end.

(** What a trace records of a call: the verb with its argument. *)
Inductive Call : Type :=
| CallGet (key : NamespacedName)
| CallCreate (obj : Object)
| CallUpdate (obj : Object)
| CallDelete (obj : Object)
| CallStatusUpdate (ms : MicroService).

Definition Call_of {T : Type} (op : Op T) : Call :=
  match op with
  | Get key => CallGet key
  | Create obj => CallCreate obj
  | Update obj => CallUpdate obj
  | Delete obj => CallDelete obj
  | StatusUpdate ms => CallStatusUpdate ms
  end.

(** The error a call returned ([None] for nil). *)
Definition error_of {T : Type} (op : Op T) : T → option Error :=
  match op in Op T return T → option Error with
  | Get _ => λ r, match r with inl e => Some e | inr _ => None end
  | Create _ => λ r, r
  | Update _ => λ r, r
  | Delete _ => λ r, r
  | StatusUpdate _ => λ r, r
  end.

(** A mutating call is any call but a read. *)
Definition mutating (c : Call) : bool :=
  match c with
  | CallGet _ => false
  | _ => true
  end.

(** One entry of a trace: the call and the error it returned. *)
Definition Event : Type := Call * option Error.

(** An implementation of the client over a state [St]. *)
Definition Client (St : Type) : Type := ∀ T : Type, Op T → St → T * St.

(** The outcome of running a program: the value returned, the calls
    issued in order, the final state of the client. *)
Record Run (A St : Type) : Type := {
  returned : A;
  trace : list Event;
  final : St
}.

Arguments returned {A St} r.
Arguments trace {A St} r.
Arguments final {A St} r.

Fixpoint run {St A : Type} (c : Client St) (p : Prog A) (s : St) : Run A St :=
  match p with
  | Ret a => {| returned := a; trace := []; final := s |}
  | Vis op k =>
      let '(r, s1) := c _ op s in
      let rest := run c (k r) s1 in
      {| returned := returned rest;
         trace := (Call_of op, error_of op r) :: trace rest;
         final := final rest |}
  end.

(** [n] passes for the same request, one after the other; the traces are
    appended. *)
Fixpoint run_passes {St : Type} (c : Client St) (req : Request) (n : nat)
    (s : St) : list Event * St :=
  match n with
  | O => ([], s)
  | S n' =>
      let r := run c (Reconcile req) s in
      let '(tr, s') := run_passes c req n' (final r) in
      ((trace r ++ tr)%list, s')
  end.

(* ===================================================================== *)
(** ** A reference client: an in-memory object store

    The client itself is outside the repository.  [FakeClient] is the
    usual test double of the interface: objects of each kind keyed by
    namespace and name, [Get] of an absent object fails with NotFound,
    [Create] of a present one with AlreadyExists, [Update], [Delete] and
    the status write of an absent one with NotFound.  Failures of the
    backing store are injected: [getFault] makes every [Get] fail,
    [createFault] every [Create] of a kind. *)
(* ===================================================================== *)

#[global] Instance NamespacedName_countable : Countable NamespacedName :=
  inj_countable'
    (λ n, (NamespacedName_Namespace n, NamespacedName_Name n))
    (λ p, {| NamespacedName_Namespace := p.1; NamespacedName_Name := p.2 |})
    (λ n, match n with Build_NamespacedName _ _ => eq_refl end).

Inductive Kind : Type := KindDeployment | KindService | KindIngress.

#[global] Instance Kind_eq_dec : EqDecision Kind.
Proof. solve_decision. Defined.

Definition kindOf (o : Object) : Kind :=
  match o with
  | ObjDeployment _ => KindDeployment
  | ObjService _ => KindService
  | ObjIngress _ => KindIngress
  end.

Definition objectKey (o : Object) : NamespacedName :=
  {| NamespacedName_Namespace := ObjectMeta_Namespace (objectMeta o);
     NamespacedName_Name := ObjectMeta_Name (objectMeta o) |}.

Record Store : Type := {
  microservices : gmap NamespacedName MicroService;
  deployments : gmap NamespacedName Deployment;
  services : gmap NamespacedName Service;
  ingresses : gmap NamespacedName Ingress;
  getFault : option Error;
  createFault : Kind → option Error
}.

Definition errNotFound : Error :=
  {| Error_Reason := StatusReasonNotFound; Error_Message := "not found" |}.

Definition errAlreadyExists : Error :=
  {| Error_Reason := StatusReasonAlreadyExists;
     Error_Message := "already exists" |}.

Definition errUnavailable : Error :=
  {| Error_Reason := StatusReasonServiceUnavailable;
     Error_Message := "the server is currently unable to handle the request" |}.

Definition errForbidden : Error :=
  {| Error_Reason := StatusReasonForbidden; Error_Message := "forbidden" |}.

Definition withMicroservices (m : gmap NamespacedName MicroService)
    (s : Store) : Store :=
  {| microservices := m; deployments := deployments s;
     services := services s; ingresses := ingresses s;
     getFault := getFault s; createFault := createFault s |}.

Definition withDeployments (m : gmap NamespacedName Deployment)
    (s : Store) : Store :=
  {| microservices := microservices s; deployments := m;
     services := services s; ingresses := ingresses s;
     getFault := getFault s; createFault := createFault s |}.

Definition withServices (m : gmap NamespacedName Service)
    (s : Store) : Store :=
  {| microservices := microservices s; deployments := deployments s;
     services := m; ingresses := ingresses s;
     getFault := getFault s; createFault := createFault s |}.

Definition withIngresses (m : gmap NamespacedName Ingress)
    (s : Store) : Store :=
  {| microservices := microservices s; deployments := deployments s;
     services := services s; ingresses := m;
     getFault := getFault s; createFault := createFault s |}.

(** Is an object of this kind and identity stored? *)
Definition stored (o : Object) (s : Store) : bool :=
  match o with
  | ObjDeployment _ => bool_decide (is_Some (deployments s !! objectKey o))
  | ObjService _ => bool_decide (is_Some (services s !! objectKey o))
  | ObjIngress _ => bool_decide (is_Some (ingresses s !! objectKey o))
  end.

Definition put (o : Object) (s : Store) : Store :=
  match o with
  | ObjDeployment d => withDeployments (<[objectKey o := d]> (deployments s)) s
  | ObjService v => withServices (<[objectKey o := v]> (services s)) s
  | ObjIngress i => withIngresses (<[objectKey o := i]> (ingresses s)) s
  end.

Definition remove (o : Object) (s : Store) : Store :=
  match o with
  | ObjDeployment _ => withDeployments (delete (objectKey o) (deployments s)) s
  | ObjService _ => withServices (delete (objectKey o) (services s)) s
  | ObjIngress _ => withIngresses (delete (objectKey o) (ingresses s)) s
  end.

Definition fakeGet (key : NamespacedName) (s : Store)
    : (Error + MicroService) * Store :=
  match getFault s with
  | Some e => (inl e, s)
  | None =>
      match microservices s !! key with
      | Some ms => (inr ms, s)
      | None => (inl errNotFound, s)
      end
  end.

Definition fakeCreate (o : Object) (s : Store) : option Error * Store :=
  match createFault s (kindOf o) with
  | Some e => (Some e, s)
  | None =>
      if stored o s then (Some errAlreadyExists, s) else (None, put o s)
  end.

Definition fakeUpdate (o : Object) (s : Store) : option Error * Store :=
  if stored o s then (None, put o s) else (Some errNotFound, s).

Definition fakeDelete (o : Object) (s : Store) : option Error * Store :=
  if stored o s then (None, remove o s) else (Some errNotFound, s).

Definition msKey (ms : MicroService) : NamespacedName :=
  {| NamespacedName_Namespace :=
       ObjectMeta_Namespace (MicroService_ObjectMeta ms);
     NamespacedName_Name := ObjectMeta_Name (MicroService_ObjectMeta ms) |}.

Definition fakeStatusUpdate (ms : MicroService) (s : Store)
    : option Error * Store :=
  match microservices s !! msKey ms with
  | Some old =>
      (None,
       withMicroservices
         (<[msKey ms := {| MicroService_ObjectMeta := MicroService_ObjectMeta old;
                           MicroService_Spec := MicroService_Spec old;
                           MicroService_Status := MicroService_Status ms |}]>
            (microservices s)) s)
  | None => (Some errNotFound, s)
  end.

Definition FakeClient : Client Store :=
  λ T op,
    match op in Op T return Store → T * Store with
    | Get key => fakeGet key
    | Create o => fakeCreate o
    | Update o => fakeUpdate o
    | Delete o => fakeDelete o
    | StatusUpdate ms => fakeStatusUpdate ms
    end.

(* ===================================================================== *)
(** ** Concrete inputs *)
(* ===================================================================== *)

Definition foo_key : NamespacedName :=
  {| NamespacedName_Namespace := "default"; NamespacedName_Name := "foo" |}.

Definition foo_req : Request := {| Request_NamespacedName := foo_key |}.

(** The declared resource
    [{name: foo, namespace: default, image: app:1.0, host: foo.example.com}],
    no pull secret, status never written. *)
Definition foo_ms : MicroService :=
  {| MicroService_ObjectMeta :=
       {| ObjectMeta_Name := "foo"; ObjectMeta_Namespace := "default";
          ObjectMeta_Labels := ∅; ObjectMeta_OwnerReferences := [];
          ObjectMeta_Generation := 1 |};
     MicroService_Spec :=
       {| MicroServiceSpec_Image := "app:1.0";
          MicroServiceSpec_Host := "foo.example.com";
          MicroServiceSpec_Secret := "" |};
     MicroService_Status :=
       {| MicroServiceStatus_Condition := None;
          MicroServiceStatus_Message := "";
          MicroServiceStatus_ObservedGeneration := 0 |} |}.

Definition noFault : Kind → option Error := λ _, None.

(** Nothing stored at all. *)
Definition empty_store : Store :=
  {| microservices := ∅; deployments := ∅; services := ∅; ingresses := ∅;
     getFault := None; createFault := noFault |}.

(** Only the declared resource is stored: empty actual state. *)
Definition foo_store : Store :=
  {| microservices := {[ foo_key := foo_ms ]};
     deployments := ∅; services := ∅; ingresses := ∅;
     getFault := None; createFault := noFault |}.

(** The declared resource and its three dependents, each equal to what
    the pass builds: the converged state. *)
Definition foo_converged : Store :=
  {| microservices := {[ foo_key := foo_ms ]};
     deployments := {[ foo_key := deployment foo_req foo_ms ]};
     services := {[ foo_key := service foo_req ]};
     ingresses := {[ foo_key := ingress foo_req foo_ms ]};
     getFault := None; createFault := noFault |}.

(** The backing store is unreachable: every [Get] fails. *)
Definition foo_unreachable : Store :=
  {| microservices := {[ foo_key := foo_ms ]};
     deployments := ∅; services := ∅; ingresses := ∅;
     getFault := Some errUnavailable; createFault := noFault |}.

(** Creating objects of kind [k] is refused. *)
Definition refuse (k : Kind) : Kind → option Error :=
  λ k', if bool_decide (k' = k) then Some errForbidden else None.

Definition foo_refused (k : Kind) : Store :=
  {| microservices := {[ foo_key := foo_ms ]};
     deployments := ∅; services := ∅; ingresses := ∅;
     getFault := None; createFault := refuse k |}.

(* ===================================================================== *)
(** ** Reading a run *)
(* ===================================================================== *)

(** The calls of a trace that mutate the store. *)
Definition mutating_calls (tr : list Event) : list Call :=
  filter (λ c, mutating c = true) (tr.*1).

(** The calls a pass is allowed by the frame property: reads and
    creations. *)
Definition get_or_create (ev : Event) : Prop :=
  match ev.1 with
  | CallGet _ | CallCreate _ => True
  | _ => False
  end.

(** The event is not a write to the status of a declared resource. *)
Definition no_status_write (ev : Event) : Prop :=
  match ev.1 with
  | CallStatusUpdate _ => False
  | _ => True
  end.

(** The created object is named after the request and carries no owner
    reference. *)
Definition created_unowned (req : Request) (ev : Event) : Prop :=
  match ev.1 with
  | CallCreate o =>
      ObjectMeta_Name (objectMeta o) = Request_Name req ∧
      ObjectMeta_Namespace (objectMeta o) = Request_Namespace req ∧
      ObjectMeta_OwnerReferences (objectMeta o) = []
  | _ => True
  end.

(** The kind a creation is for, in a trace. *)
Definition created_kind (ev : Event) : option Kind :=
  match ev.1 with
  | CallCreate o => Some (kindOf o)
  | _ => None
  end.

(** The pod spec of a deployment. *)
Definition podSpecOf (d : Deployment) : PodSpec :=
  PodTemplateSpec_Spec (DeploymentSpec_Template (Deployment_Spec d)).

(** The state the idempotence claim starts from: the declared resource is
    stored and so are its three dependents, each equal to what a pass
    builds for it. *)
Definition converged (s : Store) (req : Request) (ms : MicroService) : Prop :=
  microservices s !! Request_NamespacedName req = Some ms ∧
  deployments s !! Request_NamespacedName req = Some (deployment req ms) ∧
  services s !! Request_NamespacedName req = Some (service req) ∧
  ingresses s !! Request_NamespacedName req = Some (ingress req ms).

(** The frame of a pass on the reference store: the declared resources
    are the same and every dependent object of [s] is in [s'], unmodified. *)
Definition extends (s s' : Store) : Prop :=
  microservices s' = microservices s ∧
  deployments s ⊆ deployments s' ∧
  services s ⊆ services s' ∧
  ingresses s ⊆ ingresses s'.

(** The five ways through [Reconcile], by what the client answers. *)
Inductive Pass {St : Type} (c : Client St) (req : Request) (s : St)
  : Run (Result * option Error) St → Prop :=
| Pass_fetch_failed e s1 :
    c _ (Get (Request_NamespacedName req)) s = (inl e, s1) →
    Pass c req s
      {| returned := (Result_zero, None);
         trace := [(CallGet (Request_NamespacedName req), Some e)];
         final := s1 |}
| Pass_deployment_failed ms e s1 s2 :
    c _ (Get (Request_NamespacedName req)) s = (inr ms, s1) →
    c _ (Create (ObjDeployment (deployment req ms))) s1 = (Some e, s2) →
    Pass c req s
      {| returned := (Result_zero, None);
         trace := [(CallGet (Request_NamespacedName req), None);
                   (CallCreate (ObjDeployment (deployment req ms)), Some e)];
         final := s2 |}
| Pass_service_failed ms e s1 s2 s3 :
    c _ (Get (Request_NamespacedName req)) s = (inr ms, s1) →
    c _ (Create (ObjDeployment (deployment req ms))) s1 = (None, s2) →
    c _ (Create (ObjService (service req))) s2 = (Some e, s3) →
    Pass c req s
      {| returned := (Result_zero, Some e);
         trace := [(CallGet (Request_NamespacedName req), None);
                   (CallCreate (ObjDeployment (deployment req ms)), None);
                   (CallCreate (ObjService (service req)), Some e)];
         final := s3 |}
| Pass_ingress_failed ms e s1 s2 s3 s4 :
    c _ (Get (Request_NamespacedName req)) s = (inr ms, s1) →
    c _ (Create (ObjDeployment (deployment req ms))) s1 = (None, s2) →
    c _ (Create (ObjService (service req))) s2 = (None, s3) →
    c _ (Create (ObjIngress (ingress req ms))) s3 = (Some e, s4) →
    Pass c req s
      {| returned := (Result_zero, None);
         trace := [(CallGet (Request_NamespacedName req), None);
                   (CallCreate (ObjDeployment (deployment req ms)), None);
                   (CallCreate (ObjService (service req)), None);
                   (CallCreate (ObjIngress (ingress req ms)), Some e)];
         final := s4 |}
| Pass_all_created ms s1 s2 s3 s4 :
    c _ (Get (Request_NamespacedName req)) s = (inr ms, s1) →
    c _ (Create (ObjDeployment (deployment req ms))) s1 = (None, s2) →
    c _ (Create (ObjService (service req))) s2 = (None, s3) →
    c _ (Create (ObjIngress (ingress req ms))) s3 = (None, s4) →
    Pass c req s
      {| returned := (Result_zero, None);
         trace := [(CallGet (Request_NamespacedName req), None);
                   (CallCreate (ObjDeployment (deployment req ms)), None);
                   (CallCreate (ObjService (service req)), None);
                   (CallCreate (ObjIngress (ingress req ms)), None)];
         final := s4 |}.

(* ===================================================================== *)
(** ** The earlier stage of the controller: the Deployment only

    The stage before the complete one fetches the declared resource and
    creates the Deployment, whose pod spec has no [ImagePullSecrets]; both
    returns after the creation carry a nil error. *)
(* ===================================================================== *)

Module Stage1.

(** The local [deployment] of this stage. *)
Definition deployment (req : Request) (ms : MicroService) : Deployment :=
  {| Deployment_TypeMeta :=
       {| TypeMeta_Kind := "Deployment"; TypeMeta_APIVersion := "apps/v1" |};
     Deployment_ObjectMeta :=
       {| ObjectMeta_Name := Request_Name req;
          ObjectMeta_Namespace := Request_Namespace req;
          ObjectMeta_Labels := ∅;
          ObjectMeta_OwnerReferences := [];
          ObjectMeta_Generation := 0 |};
     Deployment_Spec :=
       {| DeploymentSpec_Selector :=
            Some {| LabelSelector_MatchLabels := podLabels req |};
          DeploymentSpec_Template :=
            {| PodTemplateSpec_ObjectMeta :=
                 {| ObjectMeta_Name := "";
                    ObjectMeta_Namespace := "";
                    ObjectMeta_Labels := podLabels req;
                    ObjectMeta_OwnerReferences := [];
                    ObjectMeta_Generation := 0 |};
               PodTemplateSpec_Spec :=
                 {| PodSpec_ImagePullSecrets := [];
                    PodSpec_Containers :=
                      [ {| Container_Name := Request_Name req;
                           Container_Image :=
                             MicroServiceSpec_Image (MicroService_Spec ms);
                           Container_ImagePullPolicy := "Always";
                           Container_Ports :=
                             [ {| ContainerPort_ContainerPort := 8080 |} ]
                        |} ]
                 |}
            |}
       |}
  |}.

(** [Reconcile] of this stage. *)
Definition Reconcile (req : Request) : Prog (Result * option Error) :=
  got ← call (Get (Request_NamespacedName req));
  match got with
  | inl err =>
      let err := IgnoreNotFound (Some err) in
      match err with
      | Some _ => mret (Result_zero, None)
      | None => mret (Result_zero, err)
      end
  | inr ms =>
      err ← call (Create (ObjDeployment (deployment req ms)));
      match err with
      | Some _ => mret (Result_zero, None)
      | None => mret (Result_zero, None)
      end
  end.

End Stage1.

(* ===================================================================== *)
(** ** How the three objects of a pass refer to each other *)
(* ===================================================================== *)

(** The labels of the pods a Deployment starts. *)
Definition podTemplateLabels (d : Deployment) : gmap string string :=
  ObjectMeta_Labels
    (PodTemplateSpec_ObjectMeta (DeploymentSpec_Template (Deployment_Spec d))).

(** The ports the containers of a Deployment declare. *)
Definition containerPorts (d : Deployment) : list Z :=
  c ← PodSpec_Containers (podSpecOf d);
  ContainerPort_ContainerPort <$> Container_Ports c.

(** A label selector selects the pods that carry each of its labels; an
    empty selector selects none here. *)
Definition selects (sel labels : gmap string string) : bool :=
  bool_decide (sel ≠ ∅ ∧ sel ⊆ labels).

(** The selector of the Deployment selects the pods of its own template. *)
Definition deployment_selects_own_pods (d : Deployment) : bool :=
  match DeploymentSpec_Selector (Deployment_Spec d) with
  | Some sel => selects (LabelSelector_MatchLabels sel) (podTemplateLabels d)
  | None => false
  end.

(** The Service is in the namespace of the Deployment and selects its
    pods. *)
Definition service_selects (v : Service) (d : Deployment) : bool :=
  selects (ServiceSpec_Selector (Service_Spec v)) (podTemplateLabels d) &&
  bool_decide (ObjectMeta_Namespace (Service_ObjectMeta v) =
               ObjectMeta_Namespace (Deployment_ObjectMeta d)).

(** Every port of the Service targets, by number, a port that a container
    of the Deployment declares. *)
Definition service_targets (v : Service) (d : Deployment) : bool :=
  forallb
    (λ p, match ServicePort_TargetPort p with
          | FromInt z => bool_decide (z ∈ containerPorts d)
          | FromString _ => false
          end)
    (ServiceSpec_Ports (Service_Spec v)).

(** The backends of all paths of all rules of an Ingress. *)
Definition ingress_backends (i : Ingress) : list IngressBackend :=
  rule ← IngressSpec_Rules (Ingress_Spec i);
  match IngressRule_HTTP rule with
  | Some http => HTTPIngressPath_Backend <$> HTTPIngressRuleValue_Paths http
  | None => []
  end.

(** Every backend of the Ingress names the Service and, by number, a port
    the Service exposes; both are in one namespace. *)
Definition ingress_routes_to (i : Ingress) (v : Service) : bool :=
  forallb
    (λ b, bool_decide (IngressBackend_ServiceName b =
                       ObjectMeta_Name (Service_ObjectMeta v)) &&
          match IngressBackend_ServicePort b with
          | FromInt z =>
              bool_decide
                (z ∈ ServicePort_Port <$> ServiceSpec_Ports (Service_Spec v))
          | FromString _ => false
          end)
    (ingress_backends i) &&
  bool_decide (ObjectMeta_Namespace (Ingress_ObjectMeta i) =
               ObjectMeta_Namespace (Service_ObjectMeta v)).

(* ===================================================================== *)
(** ** Relations between states of the reference store *)
(* ===================================================================== *)

(** The same objects, with the backing store healthy again. *)
Definition healed (s : Store) : Store :=
  {| microservices := microservices s; deployments := deployments s;
     services := services s; ingresses := ingresses s;
     getFault := None; createFault := noFault |}.

(** [s'] is [s] at every identity but [k]: the declared resources and the
    injected faults are the same, and so is every dependent object stored
    under another identity. *)
Definition same_off (k : NamespacedName) (s s' : Store) : Prop :=
  microservices s' = microservices s ∧
  getFault s' = getFault s ∧
  createFault s' = createFault s ∧
  ∀ k' : NamespacedName, k' ≠ k →
    deployments s' !! k' = deployments s !! k' ∧
    services s' !! k' = services s !! k' ∧
    ingresses s' !! k' = ingresses s !! k'.

(** The store after the creations of a trace that succeeded, in order. *)
Fixpoint applied (tr : list Event) (s : Store) : Store :=
  match tr with
  | [] => s
  | (CallCreate o, None) :: tr' => applied tr' (put o s)
  | _ :: tr' => applied tr' s
  end.

(** Every call of the trace is about the identity [k]. *)
Definition about (k : NamespacedName) (ev : Event) : Prop :=
  match ev.1 with
  | CallGet key => key = k
  | CallCreate o | CallUpdate o | CallDelete o => objectKey o = k
  | CallStatusUpdate ms => msKey ms = k
  end.

(** [s] and [s'] hold the same at the identity [k] and have the same
    injected faults: all that the calls about [k] depend on. *)
Definition same_at (k : NamespacedName) (s s' : Store) : Prop :=
  microservices s' !! k = microservices s !! k ∧
  deployments s' !! k = deployments s !! k ∧
  services s' !! k = services s !! k ∧
  ingresses s' !! k = ingresses s !! k ∧
  getFault s' = getFault s ∧
  createFault s' = createFault s.

(** The call is a read of [k] or the creation of an object named [k]. *)
Definition op_at (k : NamespacedName) {T : Type} (op : Op T) : Prop :=
  match op with
  | Get key => key = k
  | Create o => objectKey o = k
  | _ => False
  end.

(** Every call the program can issue, whatever the answers, is such a
    call. *)
Inductive OpsAt (k : NamespacedName) {A : Type} : Prog A → Prop :=
| OpsAt_Ret a : OpsAt k (Ret a)
| OpsAt_Vis T (op : Op T) (kont : T → Prog A) :
    op_at k op → (∀ r : T, OpsAt k (kont r)) → OpsAt k (Vis op kont).

(** More concrete inputs: a second declared resource, and stores in
    which [foo] is partly deployed. *)
Definition bar_key : NamespacedName :=
  {| NamespacedName_Namespace := "default"; NamespacedName_Name := "bar" |}.

Definition bar_req : Request := {| Request_NamespacedName := bar_key |}.

Definition bar_ms : MicroService :=
  {| MicroService_ObjectMeta :=
       {| ObjectMeta_Name := "bar"; ObjectMeta_Namespace := "default";
          ObjectMeta_Labels := ∅; ObjectMeta_OwnerReferences := [];
          ObjectMeta_Generation := 1 |};
     MicroService_Spec :=
       {| MicroServiceSpec_Image := "bar:2.0";
          MicroServiceSpec_Host := "bar.example.com";
          MicroServiceSpec_Secret := "regcred" |};
     MicroService_Status :=
       {| MicroServiceStatus_Condition := None;
          MicroServiceStatus_Message := "";
          MicroServiceStatus_ObservedGeneration := 0 |} |}.

(** [foo] and [bar] declared, nothing deployed. *)
Definition foo_bar_store : Store :=
  {| microservices := {[ foo_key := foo_ms; bar_key := bar_ms ]};
     deployments := ∅; services := ∅; ingresses := ∅;
     getFault := None; createFault := noFault |}.

(** [foo] declared; a Deployment [foo] is stored that differs from the
    one a pass builds (it has no pull secret reference), and neither the
    Service nor the Ingress is there. *)
Definition foo_partial : Store :=
  {| microservices := {[ foo_key := foo_ms ]};
     deployments := {[ foo_key := Stage1.deployment foo_req foo_ms ]};
     services := ∅; ingresses := ∅;
     getFault := None; createFault := noFault |}.

(* ===================================================================== *)
(** ** Every run of [Reconcile] is one of the five passes *)
(* ===================================================================== *)

(** Split on what the client answers to the next call of the goal. *)
Ltac answer c :=
  match goal with
  | |- context [c ?T ?op ?s] =>
      let r := fresh "r" in
      let s' := fresh "s" in
      let E := fresh "E" in
      destruct (c T op s) as [r s'] eqn:E; simpl
  end.

Lemma Reconcile_pass {St : Type} (c : Client St) (req : Request) (s : St) :
  Pass c req s (run c (Reconcile req) s).
Proof.
  unfold Reconcile, call, mbind, Prog_mbind, mret, Prog_mret. simpl.
  answer c. destruct r as [e | ms].
  - (* the fetch failed *)
    unfold IgnoreNotFound. destruct (IsNotFound (Some e)); simpl;
      by apply Pass_fetch_failed.
  - simpl. answer c. destruct r as [e | ]; simpl.
    { by eapply Pass_deployment_failed. }
    answer c. destruct r as [e | ]; simpl.
    { by eapply Pass_service_failed. }
    answer c. destruct r as [e | ]; simpl.
    { by eapply Pass_ingress_failed. }
    by eapply Pass_all_created.
Qed.

(** Facts of the reference client: a read never changes the store, and a
    creation changes at most the entry it creates. *)
Lemma extends_refl s : extends s s.
Proof. by repeat split. Qed.

Lemma extends_trans s1 s2 s3 : extends s1 s2 → extends s2 s3 → extends s1 s3.
Proof.
  intros (Hm & Hd & Hs & Hi) (Hm' & Hd' & Hs' & Hi').
  repeat split; [congruence | by etrans ..].
Qed.

Lemma fakeGet_final key s : (fakeGet key s).2 = s.
Proof. unfold fakeGet. by repeat case_match. Qed.

Lemma fakeGet_extends key s r s1 : fakeGet key s = (r, s1) → extends s s1.
Proof.
  intros H. pose proof (fakeGet_final key s) as F. rewrite H in F.
  simpl in F. subst s1. apply extends_refl.
Qed.

Lemma fakeCreate_extends o s r s1 : fakeCreate o s = (r, s1) → extends s s1.
Proof.
  unfold fakeCreate. destruct (createFault s (kindOf o)).
  { intros [= _ <-]. apply extends_refl. }
  destruct (stored o s) eqn:Hst; intros [= _ <-]; [apply extends_refl |].
  destruct o; simpl in *; apply bool_decide_eq_false in Hst;
    rewrite <- eq_None_not_Some in Hst;
    repeat split; try done; by apply insert_subseteq.
Qed.

Lemma fakeCreate_stored o s :
  createFault s (kindOf o) = None → stored o s = true →
  fakeCreate o s = (Some errAlreadyExists, s).
Proof. intros Hf Hst. unfold fakeCreate. by rewrite Hf, Hst. Qed.

Lemma fakeCreate_fresh o s :
  createFault s (kindOf o) = None → stored o s = false →
  fakeCreate o s = (None, put o s).
Proof. intros Hf Hst. unfold fakeCreate. by rewrite Hf, Hst. Qed.

(** The objects of a pass are keyed by the request. *)
Lemma objectKey_deployment req ms :
  objectKey (ObjDeployment (deployment req ms)) = Request_NamespacedName req.
Proof. by destruct req as [[ns name]]. Qed.

Lemma objectKey_service req :
  objectKey (ObjService (service req)) = Request_NamespacedName req.
Proof. by destruct req as [[ns name]]. Qed.

Lemma objectKey_ingress req ms :
  objectKey (ObjIngress (ingress req ms)) = Request_NamespacedName req.
Proof. by destruct req as [[ns name]]. Qed.

(* ===================================================================== *)
(** ** The claims *)
(* ===================================================================== *)

(** C5 (benign not-found).  When the fetch of the declared resource
    reports not-found, [Reconcile] returns the zero [Result] (no requeue,
    no requeue-after) with a nil error, and the only call it issued is the
    [Get]: no mutating call. *)
Theorem C5_not_found_is_benign {St : Type} (c : Client St) (req : Request)
    (s s1 : St) (e : Error) :
  c _ (Get (Request_NamespacedName req)) s = (inl e, s1) →
  IsNotFound (Some e) = true →
  let r := run c (Reconcile req) s in
  returned r = (Result_zero, None) ∧
  Result_Requeue (returned r).1 = false ∧
  trace r = [(CallGet (Request_NamespacedName req), Some e)] ∧
  mutating_calls (trace r) = [] ∧
  final r = s1.
Proof.
  intros Hget Hnf r. subst r.
  destruct (Reconcile_pass c req s) as [e' s1' H | | | | ];
    try congruence.
  rewrite Hget in H. by simplify_eq.
Qed.

Lemma C5_not_found_is_benign_witness :
  let r := run FakeClient (Reconcile foo_req) empty_store in
  returned r = (Result_zero, None) ∧
  Result_Requeue (returned r).1 = false ∧
  trace r = [(CallGet foo_key, Some errNotFound)] ∧
  mutating_calls (trace r) = [] ∧
  final r = empty_store.
Proof.
  apply (C5_not_found_is_benign FakeClient foo_req empty_store empty_store
           errNotFound); reflexivity.
Defined.

(** C6 (the code at the failing input).  With the backing store
    unreachable the fetch fails with ServiceUnavailable, which is not a
    not-found error; the pass still returns the zero [Result] with a nil
    error, which is the report of success. *)
Theorem C6_unreachable_store_reports_success :
  let r := run FakeClient (Reconcile foo_req) foo_unreachable in
  trace r = [(CallGet foo_key, Some errUnavailable)] ∧
  IsNotFound (Some errUnavailable) = false ∧
  returned r = (Result_zero, None).
Proof. by vm_compute. Qed.

(** C9 (frame).  For every client, state and request, the calls of a pass
    are reads and creations only: no update, no delete, no status write.
    Against the reference store, a pass therefore leaves every declared
    resource (spec and status) as it was and keeps every dependent object
    that was already stored, unmodified. *)
Theorem C9_only_get_and_create :
  (∀ (St : Type) (c : Client St) (req : Request) (s : St),
     Forall get_or_create (trace (run c (Reconcile req) s))) ∧
  (∀ (req : Request) (s : Store),
     let s' := final (run FakeClient (Reconcile req) s) in
     microservices s' = microservices s ∧
     deployments s ⊆ deployments s' ∧
     services s ⊆ services s' ∧
     ingresses s ⊆ ingresses s').
Proof.
  split.
  - intros St c req s.
    destruct (Reconcile_pass c req s); simpl;
      repeat (apply Forall_cons; split; [exact I |]); apply Forall_nil_2.
  - intros req s. change (extends s (final (run FakeClient (Reconcile req) s))).
    destruct (Reconcile_pass FakeClient req s); simpl in *;
      repeat match goal with
        | H : fakeGet _ _ = _ |- _ => apply fakeGet_extends in H
        | H : fakeCreate _ _ = _ |- _ => apply fakeCreate_extends in H
        end;
      eauto using extends_trans.
Qed.

(** C10 (result shape).  Every way through [Reconcile] returns the zero
    [Result]: no requeue flag and no requeue-after duration, so only a
    non-nil error can trigger a retry.  The error returned is non-nil on
    exactly one path: the fetch and the Deployment creation succeeded and
    the Service creation failed; the error is then the one [Create]
    returned. *)
Theorem C10_result_shape :
  ∀ (St : Type) (c : Client St) (req : Request) (s : St),
    let r := run c (Reconcile req) s in
    (returned r).1 = Result_zero ∧
    Result_Requeue (returned r).1 = false ∧
    Result_RequeueAfter (returned r).1 = 0 ∧
    ∀ e : Error,
      (returned r).2 = Some e ↔
      ∃ ms : MicroService,
        trace r =
          [(CallGet (Request_NamespacedName req), None);
           (CallCreate (ObjDeployment (deployment req ms)), None);
           (CallCreate (ObjService (service req)), Some e)].
Proof.
  intros St c req s r. subst r.
  destruct (Reconcile_pass c req s) as
    [e0 s1 Hg | ms e0 s1 s2 Hg Hd | ms e0 s1 s2 s3 Hg Hd Hs
    | ms e0 s1 s2 s3 s4 Hg Hd Hs Hi | ms s1 s2 s3 s4 Hg Hd Hs Hi];
    simpl; repeat split; try (intros [ms' Htr]); try discriminate.
  - intros [= ->]. by exists ms.
  - by simplify_eq.
Qed.

(** C4 (counterexample).  The declared resource [foo_ms] has an empty
    [Spec.Secret], and the Deployment built for it still carries a pull
    secret reference, the one with the empty name. *)
Lemma C4_empty_secret_still_referenced :
  MicroServiceSpec_Secret (MicroService_Spec foo_ms) = "" ∧
  PodSpec_ImagePullSecrets (podSpecOf (deployment foo_req foo_ms)) =
    [ {| LocalObjectReference_Name := "" |} ] ∧
  PodSpec_ImagePullSecrets (podSpecOf (deployment foo_req foo_ms)) ≠ [].
Proof. repeat split. discriminate. Qed.

(** C4 (amended).  For every request and every fetched declared resource,
    the Deployment handed to [Create] carries exactly one image pull
    secret reference, whose name is [Spec.Secret], whether or not that
    string is empty. *)
Theorem C4_pull_secret_always_attached {St : Type} (c : Client St)
    (req : Request) (s s1 : St) (ms : MicroService) :
  c _ (Get (Request_NamespacedName req)) s = (inr ms, s1) →
  let r := run c (Reconcile req) s in
  ∃ err : option Error,
    trace r !! 1%nat = Some (CallCreate (ObjDeployment (deployment req ms)), err) ∧
    PodSpec_ImagePullSecrets (podSpecOf (deployment req ms)) =
      [ {| LocalObjectReference_Name :=
             MicroServiceSpec_Secret (MicroService_Spec ms) |} ].
Proof.
  intros Hg r. subst r.
  destruct (Reconcile_pass c req s) as
    [e0 s1' Hg' | ms' e0 s1' s2 Hg' Hd | ms' e0 s1' s2 s3 Hg' Hd Hs
    | ms' e0 s1' s2 s3 s4 Hg' Hd Hs Hi | ms' s1' s2 s3 s4 Hg' Hd Hs Hi];
    rewrite Hg in Hg'; simplify_eq; simpl; eauto.
Qed.

Lemma C4_pull_secret_always_attached_witness :
  ∃ err : option Error,
    trace (run FakeClient (Reconcile foo_req) foo_store) !! 1%nat =
      Some (CallCreate (ObjDeployment (deployment foo_req foo_ms)), err) ∧
    PodSpec_ImagePullSecrets (podSpecOf (deployment foo_req foo_ms)) =
      [ {| LocalObjectReference_Name :=
             MicroServiceSpec_Secret (MicroService_Spec foo_ms) |} ].
Proof.
  apply (C4_pull_secret_always_attached FakeClient foo_req foo_store
           foo_store foo_ms).
  reflexivity.
Defined.

(** C8 (counterexample).  From the empty actual state the pass creates
    the Deployment, the Service and the Ingress of [foo], and none of the
    three carries an owner reference. *)
Lemma C8_created_objects_have_no_owner :
  let r := run FakeClient (Reconcile foo_req) foo_store in
  mutating_calls (trace r) =
    [CallCreate (ObjDeployment (deployment foo_req foo_ms));
     CallCreate (ObjService (service foo_req));
     CallCreate (ObjIngress (ingress foo_req foo_ms))] ∧
  ObjectMeta_OwnerReferences
    (objectMeta (ObjDeployment (deployment foo_req foo_ms))) = [] ∧
  ObjectMeta_OwnerReferences (objectMeta (ObjService (service foo_req))) = [] ∧
  ObjectMeta_OwnerReferences
    (objectMeta (ObjIngress (ingress foo_req foo_ms))) = [].
Proof. by vm_compute. Qed.

(** C8 (amended).  Every dependent object a pass hands to [Create] has
    the name and the namespace of the request and an empty list of owner
    references. *)
Theorem C8_created_objects_named_not_owned :
  ∀ (St : Type) (c : Client St) (req : Request) (s : St),
    Forall (created_unowned req) (trace (run c (Reconcile req) s)).
Proof.
  intros St c req s.
  destruct (Reconcile_pass c req s); simpl;
    repeat (apply Forall_cons; split; [by unfold created_unowned |]);
    apply Forall_nil_2.
Qed.

(** C2 (counterexample).  The store refuses to create Deployments.  The
    pass attempts the Deployment, gets the error, and returns a nil error:
    the failure is suppressed under an overall success, and the Service
    and the Ingress are never attempted. *)
Lemma C2_deployment_failure_suppressed :
  let r := run FakeClient (Reconcile foo_req) (foo_refused KindDeployment) in
  trace r =
    [(CallGet foo_key, None);
     (CallCreate (ObjDeployment (deployment foo_req foo_ms)),
      Some errForbidden)] ∧
  returned r = (Result_zero, None) ∧
  omap created_kind (trace r) = [KindDeployment].
Proof. by vm_compute. Qed.

(** C2 (amended).  In every pass the creations are attempted in the order
    Deployment, Service, Ingress, each one exactly when the fetch and the
    creations before it succeeded, and the pass stops at the first
    failure: after a successful fetch the Deployment creation is
    attempted, after a successful Deployment creation the Service
    creation, after a successful Service creation the Ingress creation,
    and a call that returned an error is the last call of the pass.  The
    error of a failed Service creation is the error the pass returns. *)
Theorem C2_creations_stop_at_first_failure :
  ∀ (St : Type) (c : Client St) (req : Request) (s : St),
    let r := run c (Reconcile req) s in
    omap created_kind (trace r)
      `prefix_of` [KindDeployment; KindService; KindIngress] ∧
    (∀ ev : Event, ev ∈ trace r → ev.2 ≠ None → last (trace r) = Some ev) ∧
    (∀ (o : Object) (e : Error),
       kindOf o = KindService →
       (CallCreate o, Some e) ∈ trace r →
       (returned r).2 = Some e) ∧
    ((∃ (e : Error) (s1 : St),
        c _ (Get (Request_NamespacedName req)) s = (inl e, s1) ∧
        trace r = [(CallGet (Request_NamespacedName req), Some e)]) ∨
     (∃ (ms : MicroService) (s1 : St),
        c _ (Get (Request_NamespacedName req)) s = (inr ms, s1) ∧
        ((∃ e : Error,
            trace r =
              [(CallGet (Request_NamespacedName req), None);
               (CallCreate (ObjDeployment (deployment req ms)), Some e)]) ∨
         (∃ e : Error,
            trace r =
              [(CallGet (Request_NamespacedName req), None);
               (CallCreate (ObjDeployment (deployment req ms)), None);
               (CallCreate (ObjService (service req)), Some e)] ∧
            (returned r).2 = Some e) ∨
         (∃ err : option Error,
            trace r =
              [(CallGet (Request_NamespacedName req), None);
               (CallCreate (ObjDeployment (deployment req ms)), None);
               (CallCreate (ObjService (service req)), None);
               (CallCreate (ObjIngress (ingress req ms)), err)])))).
Proof.
  intros St c req s r. subst r.
  destruct (Reconcile_pass c req s) as
    [e s1 Hg | ms e s1 s2 Hg Hd | ms e s1 s2 s3 Hg Hd Hs
    | ms e s1 s2 s3 s4 Hg Hd Hs Hi | ms s1 s2 s3 s4 Hg Hd Hs Hi];
    simpl; split_and!;
    try (intros ev Hin Hev; set_unfold; by destruct_or!; simplify_eq);
    try (intros o e' Hk Hin; set_unfold;
         by destruct_or!; simplify_eq; simpl in * );
    unfold created_kind; simpl.
  - apply prefix_nil.
  - left. by exists e, s1.
  - by exists [KindService; KindIngress].
  - right. exists ms, s1. split; [done |]. left. by exists e.
  - by exists [KindIngress].
  - right. exists ms, s1. split; [done |]. right. left. by exists e.
  - by exists [].
  - right. exists ms, s1. split; [done |]. right. right. by exists (Some e).
  - by exists [].
  - right. exists ms, s1. split; [done |]. right. right. by exists None.
Qed.

(** C7 (counterexample).  From the empty actual state the pass succeeds:
    the four calls return no error and the pass returns a nil error.  No
    call writes the status; the declared resource is stored as before,
    with no condition and observed generation 0 at generation 1. *)
Lemma C7_converged_without_status :
  let r := run FakeClient (Reconcile foo_req) foo_store in
  returned r = (Result_zero, None) ∧
  (trace r).*2 = [None; None; None; None] ∧
  Forall no_status_write (trace r) ∧
  microservices (final r) !! foo_key = Some foo_ms ∧
  MicroServiceStatus_Condition (MicroService_Status foo_ms) = None ∧
  MicroServiceStatus_ObservedGeneration (MicroService_Status foo_ms) = 0 ∧
  ObjectMeta_Generation (MicroService_ObjectMeta foo_ms) = 1.
Proof.
  vm_compute. split_and!; try reflexivity.
  repeat (apply Forall_cons; split; [exact I |]). apply Forall_nil_2.
Qed.

(** C7 (amended).  A pass in which the fetch and the three creations
    succeed issues exactly these four calls and returns the zero [Result]
    with a nil error; it writes no status, neither an observed generation
    nor a Ready condition. *)
Theorem C7_success_writes_no_status {St : Type} (c : Client St)
    (req : Request) (ms : MicroService) (s s1 s2 s3 s4 : St) :
  c _ (Get (Request_NamespacedName req)) s = (inr ms, s1) →
  c _ (Create (ObjDeployment (deployment req ms))) s1 = (None, s2) →
  c _ (Create (ObjService (service req))) s2 = (None, s3) →
  c _ (Create (ObjIngress (ingress req ms))) s3 = (None, s4) →
  let r := run c (Reconcile req) s in
  returned r = (Result_zero, None) ∧
  trace r =
    [(CallGet (Request_NamespacedName req), None);
     (CallCreate (ObjDeployment (deployment req ms)), None);
     (CallCreate (ObjService (service req)), None);
     (CallCreate (ObjIngress (ingress req ms)), None)] ∧
  Forall no_status_write (trace r) ∧
  final r = s4.
Proof.
  intros Hg Hd Hs Hi r. subst r.
  unfold Reconcile, call, mbind, Prog_mbind, mret, Prog_mret. simpl.
  rewrite Hg. simpl. rewrite Hd. simpl. rewrite Hs. simpl. rewrite Hi. simpl.
  split_and!; try reflexivity.
  repeat (apply Forall_cons; split; [exact I |]). apply Forall_nil_2.
Qed.

Lemma C7_success_writes_no_status_witness :
  let r := run FakeClient (Reconcile foo_req) foo_store in
  returned r = (Result_zero, None) ∧
  trace r =
    [(CallGet foo_key, None);
     (CallCreate (ObjDeployment (deployment foo_req foo_ms)), None);
     (CallCreate (ObjService (service foo_req)), None);
     (CallCreate (ObjIngress (ingress foo_req foo_ms)), None)] ∧
  Forall no_status_write (trace r) ∧
  final r =
    put (ObjIngress (ingress foo_req foo_ms))
      (put (ObjService (service foo_req))
         (put (ObjDeployment (deployment foo_req foo_ms)) foo_store)).
Proof.
  apply (C7_success_writes_no_status FakeClient foo_req foo_ms foo_store
           foo_store
           (put (ObjDeployment (deployment foo_req foo_ms)) foo_store)
           (put (ObjService (service foo_req))
              (put (ObjDeployment (deployment foo_req foo_ms)) foo_store)));
    reflexivity.
Defined.

(** What one pass does on a store in which the declared resource and its
    Deployment are present: the creation is rejected and nothing changes. *)
Lemma run_deployment_present (s : Store) (req : Request) (ms : MicroService) :
  getFault s = None →
  createFault s KindDeployment = None →
  microservices s !! Request_NamespacedName req = Some ms →
  is_Some (deployments s !! Request_NamespacedName req) →
  run FakeClient (Reconcile req) s =
    {| returned := (Result_zero, None);
       trace :=
         [(CallGet (Request_NamespacedName req), None);
          (CallCreate (ObjDeployment (deployment req ms)),
           Some errAlreadyExists)];
       final := s |}.
Proof.
  intros Hgf Hcf Hms Hd.
  unfold Reconcile, call, mbind, Prog_mbind, mret, Prog_mret. simpl.
  unfold fakeGet. rewrite Hgf, Hms. simpl.
  rewrite fakeCreate_stored; [done | done |].
  simpl. rewrite objectKey_deployment. by apply bool_decide_eq_true.
Qed.

(** Repeating the pass on such a store repeats the same two calls. *)
Lemma run_passes_deployment_present (s : Store) (req : Request)
    (ms : MicroService) (n : nat) :
  getFault s = None →
  createFault s KindDeployment = None →
  microservices s !! Request_NamespacedName req = Some ms →
  is_Some (deployments s !! Request_NamespacedName req) →
  run_passes FakeClient req n s =
    (concat
       (replicate n
          [(CallGet (Request_NamespacedName req), None);
           (CallCreate (ObjDeployment (deployment req ms)),
            Some errAlreadyExists)]),
     s).
Proof.
  intros Hgf Hcf Hms Hd. induction n as [| n IH]; [reflexivity |].
  cbn [run_passes]. rewrite (run_deployment_present s req ms) by done.
  cbn [final trace]. by rewrite IH.
Qed.

(** C1 (counterexample).  [foo_converged] holds the declared resource and
    its three dependents exactly as a pass builds them, and the pass
    still issues a mutating call: the creation of the Deployment. *)
Lemma C1_converged_pass_issues_create :
  converged foo_converged foo_req foo_ms ∧
  mutating_calls (trace (run FakeClient (Reconcile foo_req) foo_converged)) =
    [CallCreate (ObjDeployment (deployment foo_req foo_ms))].
Proof. by vm_compute. Qed.

(** C1 (amended).  On a converged state every pass issues exactly one
    mutating call, the creation of the Deployment; the store rejects it
    because the object exists, the pass returns the zero [Result] with a
    nil error, issues no update and no delete, and leaves the store as it
    was.  [n] passes in a row issue [n] such rejected creations and the
    store is still the same. *)
Theorem C1_converged_passes_rejected (s : Store) (req : Request)
    (ms : MicroService) (n : nat) :
  getFault s = None →
  createFault s KindDeployment = None →
  converged s req ms →
  let r := run FakeClient (Reconcile req) s in
  returned r = (Result_zero, None) ∧
  trace r =
    [(CallGet (Request_NamespacedName req), None);
     (CallCreate (ObjDeployment (deployment req ms)), Some errAlreadyExists)] ∧
  final r = s ∧
  (run_passes FakeClient req n s).2 = s ∧
  mutating_calls (run_passes FakeClient req n s).1 =
    replicate n (CallCreate (ObjDeployment (deployment req ms))).
Proof.
  intros Hgf Hcf (Hms & Hd & _ & _) r. subst r.
  rewrite (run_deployment_present s req ms) by eauto.
  rewrite (run_passes_deployment_present s req ms n) by eauto.
  split_and!; try reflexivity.
  cbn [fst]. unfold mutating_calls.
  induction n as [| n IH]; [reflexivity |].
  cbn [replicate concat]. rewrite fmap_app, filter_app, IH. reflexivity.
Qed.

Lemma C1_converged_passes_rejected_witness :
  let r := run FakeClient (Reconcile foo_req) foo_converged in
  returned r = (Result_zero, None) ∧
  trace r =
    [(CallGet foo_key, None);
     (CallCreate (ObjDeployment (deployment foo_req foo_ms)),
      Some errAlreadyExists)] ∧
  final r = foo_converged ∧
  (run_passes FakeClient foo_req 2 foo_converged).2 = foo_converged ∧
  mutating_calls (run_passes FakeClient foo_req 2 foo_converged).1 =
    replicate 2 (CallCreate (ObjDeployment (deployment foo_req foo_ms))).
Proof.
  apply (C1_converged_passes_rejected foo_converged foo_req foo_ms 2);
    [reflexivity | reflexivity | by vm_compute].
Defined.

(** C3 (concrete builder scenario).  The declared resource [foo] in
    namespace [default] has image [app:1.0] and host [foo.example.com];
    nothing named [foo] is stored among the Deployments, Services and
    Ingresses, and the store is healthy.  One pass for [foo] succeeds and
    creates exactly three objects: a Deployment [foo] with one container
    of image [app:1.0], container port 8080, pull policy Always; a Service
    [foo] with selector [{app: foo}] and port 80 to target port 8080; an
    Ingress [foo] with one rule for host [foo.example.com], path [/],
    backend Service [foo] on port 80.  They are stored under [foo]. *)
Theorem C3_foo_scenario (s : Store) (ms : MicroService) :
  getFault s = None →
  (∀ k : Kind, createFault s k = None) →
  microservices s !! foo_key = Some ms →
  MicroService_Spec ms =
    {| MicroServiceSpec_Image := "app:1.0";
       MicroServiceSpec_Host := "foo.example.com";
       MicroServiceSpec_Secret := "" |} →
  deployments s !! foo_key = None →
  services s !! foo_key = None →
  ingresses s !! foo_key = None →
  let r := run FakeClient (Reconcile foo_req) s in
  ∃ (d : Deployment) (v : Service) (i : Ingress),
    returned r = (Result_zero, None) ∧
    mutating_calls (trace r) =
      [CallCreate (ObjDeployment d); CallCreate (ObjService v);
       CallCreate (ObjIngress i)] ∧
    (trace r).*2 = [None; None; None; None] ∧
    deployments (final r) = <[foo_key := d]> (deployments s) ∧
    services (final r) = <[foo_key := v]> (services s) ∧
    ingresses (final r) = <[foo_key := i]> (ingresses s) ∧
    ObjectMeta_Name (Deployment_ObjectMeta d) = "foo" ∧
    ObjectMeta_Namespace (Deployment_ObjectMeta d) = "default" ∧
    PodSpec_Containers (podSpecOf d) =
      [ {| Container_Name := "foo";
           Container_Image := "app:1.0";
           Container_ImagePullPolicy := "Always";
           Container_Ports := [ {| ContainerPort_ContainerPort := 8080 |} ]
        |} ] ∧
    ObjectMeta_Name (Service_ObjectMeta v) = "foo" ∧
    ObjectMeta_Namespace (Service_ObjectMeta v) = "default" ∧
    ServiceSpec_Selector (Service_Spec v) = {[ "app" := "foo" ]} ∧
    ServiceSpec_Ports (Service_Spec v) =
      [ {| ServicePort_Name := "foo";
           ServicePort_Port := 80;
           ServicePort_TargetPort := FromInt 8080;
           ServicePort_Protocol := "TCP" |} ] ∧
    ObjectMeta_Name (Ingress_ObjectMeta i) = "foo" ∧
    ObjectMeta_Namespace (Ingress_ObjectMeta i) = "default" ∧
    IngressSpec_Rules (Ingress_Spec i) =
      [ {| IngressRule_Host := "foo.example.com";
           IngressRule_HTTP :=
             Some {| HTTPIngressRuleValue_Paths :=
                       [ {| HTTPIngressPath_Path := "/";
                            HTTPIngressPath_Backend :=
                              {| IngressBackend_ServiceName := "foo";
                                 IngressBackend_ServicePort := FromInt 80 |}
                         |} ] |}
        |} ].
Proof.
  intros Hgf Hcf Hms Hspec Hd Hs Hi r.
  exists (deployment foo_req ms), (service foo_req), (ingress foo_req ms).
  assert (run FakeClient (Reconcile foo_req) s =
    {| returned := (Result_zero, None);
       trace :=
         [(CallGet foo_key, None);
          (CallCreate (ObjDeployment (deployment foo_req ms)), None);
          (CallCreate (ObjService (service foo_req)), None);
          (CallCreate (ObjIngress (ingress foo_req ms)), None)];
       final :=
         put (ObjIngress (ingress foo_req ms))
           (put (ObjService (service foo_req))
              (put (ObjDeployment (deployment foo_req ms)) s)) |}) as Hrun.
  { unfold Reconcile, call, mbind, Prog_mbind, mret, Prog_mret.
    cbn [Prog_bind run]. change (FakeClient _ (Get ?k)) with (fakeGet k).
    unfold fakeGet at 1. cbn [foo_req Request_NamespacedName].
    rewrite Hgf, Hms. cbn [Prog_bind run].
    change (FakeClient _ (Create ?o)) with (fakeCreate o).
    rewrite (fakeCreate_fresh (ObjDeployment _) s);
      [| apply Hcf | by apply bool_decide_eq_false; rewrite <- eq_None_not_Some].
    cbn [Prog_bind run].
    change (FakeClient _ (Create ?o)) with (fakeCreate o).
    rewrite (fakeCreate_fresh (ObjService _));
      [| apply Hcf | by apply bool_decide_eq_false; rewrite <- eq_None_not_Some].
    cbn [Prog_bind run].
    change (FakeClient _ (Create ?o)) with (fakeCreate o).
    rewrite (fakeCreate_fresh (ObjIngress _));
      [| apply Hcf | by apply bool_decide_eq_false; rewrite <- eq_None_not_Some].
    reflexivity. }
  subst r. rewrite Hrun. cbn [returned trace final].
  unfold podSpecOf, deployment, ingress. rewrite Hspec.
  split_and!; reflexivity.
Qed.

Lemma C3_foo_scenario_witness :
  let r := run FakeClient (Reconcile foo_req) foo_store in
  ∃ (d : Deployment) (v : Service) (i : Ingress),
    returned r = (Result_zero, None) ∧
    mutating_calls (trace r) =
      [CallCreate (ObjDeployment d); CallCreate (ObjService v);
       CallCreate (ObjIngress i)] ∧
    (trace r).*2 = [None; None; None; None] ∧
    deployments (final r) = <[foo_key := d]> (deployments foo_store) ∧
    services (final r) = <[foo_key := v]> (services foo_store) ∧
    ingresses (final r) = <[foo_key := i]> (ingresses foo_store) ∧
    ObjectMeta_Name (Deployment_ObjectMeta d) = "foo" ∧
    ObjectMeta_Namespace (Deployment_ObjectMeta d) = "default" ∧
    PodSpec_Containers (podSpecOf d) =
      [ {| Container_Name := "foo";
           Container_Image := "app:1.0";
           Container_ImagePullPolicy := "Always";
           Container_Ports := [ {| ContainerPort_ContainerPort := 8080 |} ]
        |} ] ∧
    ObjectMeta_Name (Service_ObjectMeta v) = "foo" ∧
    ObjectMeta_Namespace (Service_ObjectMeta v) = "default" ∧
    ServiceSpec_Selector (Service_Spec v) = {[ "app" := "foo" ]} ∧
    ServiceSpec_Ports (Service_Spec v) =
      [ {| ServicePort_Name := "foo";
           ServicePort_Port := 80;
           ServicePort_TargetPort := FromInt 8080;
           ServicePort_Protocol := "TCP" |} ] ∧
    ObjectMeta_Name (Ingress_ObjectMeta i) = "foo" ∧
    ObjectMeta_Namespace (Ingress_ObjectMeta i) = "default" ∧
    IngressSpec_Rules (Ingress_Spec i) =
      [ {| IngressRule_Host := "foo.example.com";
           IngressRule_HTTP :=
             Some {| HTTPIngressRuleValue_Paths :=
                       [ {| HTTPIngressPath_Path := "/";
                            HTTPIngressPath_Backend :=
                              {| IngressBackend_ServiceName := "foo";
                                 IngressBackend_ServicePort := FromInt 80 |}
                         |} ] |}
        |} ].
Proof.
  apply (C3_foo_scenario foo_store foo_ms); reflexivity.
Defined.

(* ===================================================================== *)
(** ** Further properties of the pass *)
(* ===================================================================== *)

(** What the answers of the reference client say about the store. *)
Lemma fakeGet_inr key s ms s1 :
  fakeGet key s = (inr ms, s1) →
  s1 = s ∧ getFault s = None ∧ microservices s !! key = Some ms.
Proof. unfold fakeGet. repeat case_match; naive_solver. Qed.

Lemma fakeCreate_None o s s1 :
  fakeCreate o s = (None, s1) →
  s1 = put o s ∧ createFault s (kindOf o) = None ∧ stored o s = false.
Proof. unfold fakeCreate. repeat case_match; naive_solver. Qed.

Lemma fakeCreate_Some o s e s1 : fakeCreate o s = (Some e, s1) → s1 = s.
Proof. unfold fakeCreate. repeat case_match; naive_solver. Qed.

(** X1 (a failed fetch is never reported).  Whatever error the fetch of
    the declared resource returns, not-found or any other, the pass
    returns the zero [Result] with a nil error and has issued the [Get]
    only. *)
Theorem X1_fetch_error_never_returned {St : Type} (c : Client St)
    (req : Request) (s s1 : St) (e : Error) :
  c _ (Get (Request_NamespacedName req)) s = (inl e, s1) →
  run c (Reconcile req) s =
    {| returned := (Result_zero, None);
       trace := [(CallGet (Request_NamespacedName req), Some e)];
       final := s1 |}.
Proof.
  intros Hget. destruct (Reconcile_pass c req s); congruence.
Qed.

Lemma X1_fetch_error_never_returned_witness :
  run FakeClient (Reconcile foo_req) foo_unreachable =
    {| returned := (Result_zero, None);
       trace := [(CallGet foo_key, Some errUnavailable)];
       final := foo_unreachable |}.
Proof.
  apply (X1_fetch_error_never_returned FakeClient foo_req foo_unreachable
           foo_unreachable errUnavailable).
  reflexivity.
Defined.

(** The objects of one request refer to each other. *)
Lemma podLabels_selects req : selects (podLabels req) (podLabels req) = true.
Proof.
  apply bool_decide_eq_true. split; [| done].
  unfold podLabels. apply map_non_empty_singleton.
Qed.

Lemma deployment_wired req ms :
  deployment_selects_own_pods (deployment req ms) = true.
Proof. apply podLabels_selects. Qed.

Lemma service_wired req ms :
  service_selects (service req) (deployment req ms) = true ∧
  service_targets (service req) (deployment req ms) = true.
Proof.
  split.
  - apply andb_true_intro. split; [apply podLabels_selects |].
    by apply bool_decide_eq_true.
  - reflexivity.
Qed.

Lemma ingress_wired req ms :
  ingress_routes_to (ingress req ms) (service req) = true.
Proof.
  unfold ingress_routes_to. cbn.
  rewrite !bool_decide_eq_true_2; [done | done | set_solver | done].
Qed.

(** X2 (the three objects fit together).  In every pass, against every
    client: the selector of a created Deployment selects the pods of its
    own template; a created Service is in the namespace of the created
    Deployment, selects its pods and targets a port its container
    declares; the backend of a created Ingress is the created Service, on
    a port the Service exposes. *)
Theorem X2_created_objects_are_wired :
  ∀ (St : Type) (c : Client St) (req : Request) (s : St),
    let calls := (trace (run c (Reconcile req) s)).*1 in
    (∀ d : Deployment,
       CallCreate (ObjDeployment d) ∈ calls →
       deployment_selects_own_pods d = true) ∧
    (∀ (d : Deployment) (v : Service),
       CallCreate (ObjDeployment d) ∈ calls →
       CallCreate (ObjService v) ∈ calls →
       service_selects v d = true ∧ service_targets v d = true ∧
       ServiceSpec_Ports (Service_Spec v) ≠ []) ∧
    (∀ (v : Service) (i : Ingress),
       CallCreate (ObjService v) ∈ calls →
       CallCreate (ObjIngress i) ∈ calls →
       ingress_routes_to i v = true ∧ ingress_backends i ≠ []).
Proof.
  intros St c req s calls. subst calls.
  destruct (Reconcile_pass c req s); cbn [trace fmap list_fmap fst];
    split_and!; intros; set_unfold; destruct_or!; simplify_eq;
    split_and?; try done;
    first [apply deployment_wired | apply service_wired | apply ingress_wired].
Qed.

(** X3 (an existing Deployment ends the pass).  The store is healthy and
    holds the declared resource and some Deployment under its identity,
    equal to the one a pass builds or not.  Then the creation of the
    Deployment is rejected and the pass ends with a nil error and the
    store as it was: the stored Deployment is not brought up to date and a
    missing Service or Ingress is not created, in one pass or in [n]. *)
Theorem X3_existing_deployment_ends_pass (s : Store) (req : Request)
    (ms : MicroService) (d : Deployment) (n : nat) :
  getFault s = None →
  createFault s KindDeployment = None →
  microservices s !! Request_NamespacedName req = Some ms →
  deployments s !! Request_NamespacedName req = Some d →
  run FakeClient (Reconcile req) s =
    {| returned := (Result_zero, None);
       trace :=
         [(CallGet (Request_NamespacedName req), None);
          (CallCreate (ObjDeployment (deployment req ms)),
           Some errAlreadyExists)];
       final := s |} ∧
  (run_passes FakeClient req n s).2 = s.
Proof.
  intros Hgf Hcf Hms Hd. split.
  - by apply run_deployment_present.
  - by rewrite (run_passes_deployment_present s req ms n).
Qed.

Lemma X3_existing_deployment_ends_pass_witness :
  run FakeClient (Reconcile foo_req) foo_partial =
    {| returned := (Result_zero, None);
       trace :=
         [(CallGet foo_key, None);
          (CallCreate (ObjDeployment (deployment foo_req foo_ms)),
           Some errAlreadyExists)];
       final := foo_partial |} ∧
  (run_passes FakeClient foo_req 3 foo_partial).2 = foo_partial.
Proof.
  apply (X3_existing_deployment_ends_pass foo_partial foo_req foo_ms
           (Stage1.deployment foo_req foo_ms) 3); reflexivity.
Defined.

(** A pass on a healthy store that holds the declared resource and none
    of its dependents. *)
Lemma run_all_fresh (s : Store) (req : Request) (ms : MicroService) :
  getFault s = None →
  (∀ k : Kind, createFault s k = None) →
  microservices s !! Request_NamespacedName req = Some ms →
  deployments s !! Request_NamespacedName req = None →
  services s !! Request_NamespacedName req = None →
  ingresses s !! Request_NamespacedName req = None →
  run FakeClient (Reconcile req) s =
    {| returned := (Result_zero, None);
       trace :=
         [(CallGet (Request_NamespacedName req), None);
          (CallCreate (ObjDeployment (deployment req ms)), None);
          (CallCreate (ObjService (service req)), None);
          (CallCreate (ObjIngress (ingress req ms)), None)];
       final :=
         put (ObjIngress (ingress req ms))
           (put (ObjService (service req))
              (put (ObjDeployment (deployment req ms)) s)) |}.
Proof.
  intros Hgf Hcf Hms Hd Hs Hi.
  assert (∀ o s', stored o s' = false ↔
                  match o with
                  | ObjDeployment _ => deployments s' !! objectKey o = None
                  | ObjService _ => services s' !! objectKey o = None
                  | ObjIngress _ => ingresses s' !! objectKey o = None
                  end) as Hstored.
  { intros [] s'; simpl; rewrite bool_decide_eq_false;
      by rewrite eq_None_not_Some. }
  unfold Reconcile, call, mbind, Prog_mbind, mret, Prog_mret.
  cbn [Prog_bind run]. change (FakeClient _ (Get ?k)) with (fakeGet k).
  unfold fakeGet at 1. rewrite Hgf, Hms. cbn [Prog_bind run].
  change (FakeClient _ (Create ?o)) with (fakeCreate o).
  rewrite (fakeCreate_fresh (ObjDeployment _) s);
    [| apply Hcf | by apply Hstored; rewrite objectKey_deployment].
  cbn [Prog_bind run].
  change (FakeClient _ (Create ?o)) with (fakeCreate o).
  rewrite (fakeCreate_fresh (ObjService _));
    [| apply Hcf | by apply Hstored; rewrite objectKey_service].
  cbn [Prog_bind run].
  change (FakeClient _ (Create ?o)) with (fakeCreate o).
  rewrite (fakeCreate_fresh (ObjIngress _));
    [| apply Hcf | by apply Hstored; rewrite objectKey_ingress].
  reflexivity.
Qed.

(** X4 (create, then find).  From a healthy store that holds the declared
    resource and none of its three dependents, one pass returns a nil
    error and leaves the store converged for that resource: each of the
    three objects is stored under the identity of the request and is the
    object the pass built. *)
Theorem X4_successful_pass_converges (s : Store) (req : Request)
    (ms : MicroService) :
  getFault s = None →
  (∀ k : Kind, createFault s k = None) →
  microservices s !! Request_NamespacedName req = Some ms →
  deployments s !! Request_NamespacedName req = None →
  services s !! Request_NamespacedName req = None →
  ingresses s !! Request_NamespacedName req = None →
  returned (run FakeClient (Reconcile req) s) = (Result_zero, None) ∧
  converged (final (run FakeClient (Reconcile req) s)) req ms.
Proof.
  intros Hgf Hcf Hms Hd Hs Hi.
  rewrite (run_all_fresh s req ms) by done. split; [done |].
  unfold converged. cbn [final].
  pose proof (objectKey_deployment req ms) as Kd.
  pose proof (objectKey_service req) as Ks.
  pose proof (objectKey_ingress req ms) as Ki.
  unfold put; simpl in *. rewrite Kd, Ks, Ki.
  split_and!; [done | by rewrite lookup_insert_eq ..].
Qed.

Lemma X4_successful_pass_converges_witness :
  returned (run FakeClient (Reconcile foo_req) foo_store) = (Result_zero, None) ∧
  converged (final (run FakeClient (Reconcile foo_req) foo_store)) foo_req foo_ms.
Proof.
  apply (X4_successful_pass_converges foo_store foo_req foo_ms); reflexivity.
Defined.

(** X5 (the retry after a failed Service creation cannot succeed).  When
    the Service creation of a pass fails, the pass returns that error,
    which asks for a retry, and the Deployment it created stays stored.
    On any healthy store with the same objects, every later pass stops at
    the rejected creation of the Deployment and returns a nil error: the
    Services and the Ingresses stay what they were before the first
    pass. *)
Theorem X5_retry_after_service_failure_is_futile (s s2 : Store)
    (req : Request) (e : Error) (n : nat) :
  (CallCreate (ObjService (service req)), Some e)
    ∈ trace (run FakeClient (Reconcile req) s) →
  microservices s2 = microservices (final (run FakeClient (Reconcile req) s)) →
  deployments s2 = deployments (final (run FakeClient (Reconcile req) s)) →
  services s2 = services (final (run FakeClient (Reconcile req) s)) →
  ingresses s2 = ingresses (final (run FakeClient (Reconcile req) s)) →
  getFault s2 = None →
  createFault s2 KindDeployment = None →
  returned (run FakeClient (Reconcile req) s) = (Result_zero, Some e) ∧
  returned (run FakeClient (Reconcile req) s2) = (Result_zero, None) ∧
  (trace (run FakeClient (Reconcile req) s2)).*2 =
    [None; Some errAlreadyExists] ∧
  (run_passes FakeClient req n s2).2 = s2 ∧
  services s2 = services s ∧
  ingresses s2 = ingresses s.
Proof.
  intros Hin Hm2 Hd2 Hs2 Hi2 Hgf2 Hcf2.
  destruct (Reconcile_pass FakeClient req s) as
    [e0 s1 Hg | ms e0 s1 s3 Hg Hd | ms e0 s1 s3 s4 Hg Hd Hs
    | ms e0 s1 s3 s4 s5 Hg Hd Hs Hi | ms s1 s3 s4 s5 Hg Hd Hs Hi];
    cbn [trace final returned] in *; set_unfold in Hin; destruct_or!;
    simplify_eq.
  apply fakeGet_inr in Hg as (-> & Hgf & Hms).
  apply fakeCreate_None in Hd as (-> & Hcf & Hst).
  apply fakeCreate_Some in Hs as ->.
  assert (microservices s2 !! Request_NamespacedName req = Some ms) as Hms2.
  { by rewrite Hm2. }
  assert (is_Some (deployments s2 !! Request_NamespacedName req)) as Hdep2.
  { rewrite Hd2. simpl. rewrite objectKey_deployment, lookup_insert_eq. eauto. }
  rewrite (run_deployment_present s2 req ms) by done.
  rewrite (run_passes_deployment_present s2 req ms n) by done.
  split_and!; try done.
Qed.

Lemma X5_retry_after_service_failure_is_futile_witness :
  let s := foo_refused KindService in
  let s2 := healed (final (run FakeClient (Reconcile foo_req) s)) in
  returned (run FakeClient (Reconcile foo_req) s) =
    (Result_zero, Some errForbidden) ∧
  returned (run FakeClient (Reconcile foo_req) s2) = (Result_zero, None) ∧
  (trace (run FakeClient (Reconcile foo_req) s2)).*2 =
    [None; Some errAlreadyExists] ∧
  (run_passes FakeClient foo_req 2 s2).2 = s2 ∧
  services s2 = services s ∧
  ingresses s2 = ingresses s.
Proof.
  intros s s2.
  apply (X5_retry_after_service_failure_is_futile s s2 foo_req errForbidden 2);
    try reflexivity.
  vm_compute. repeat constructor.
Defined.

(** Creations under one identity leave the other identities alone. *)
Lemma same_off_refl k s : same_off k s s.
Proof. by repeat split. Qed.

Lemma same_off_trans k s1 s2 s3 :
  same_off k s1 s2 → same_off k s2 s3 → same_off k s1 s3.
Proof.
  intros (Hm & Hg & Hc & Ho) (Hm' & Hg' & Hc' & Ho').
  split_and!; [congruence .. |].
  intros k' Hk. destruct (Ho k' Hk) as (? & ? & ?).
  destruct (Ho' k' Hk) as (? & ? & ?). split_and!; congruence.
Qed.

Lemma put_same_off k o s : objectKey o = k → same_off k s (put o s).
Proof.
  intros <-. split_and!; [by destruct o .. |].
  intros k' Hk. destruct o; simpl; split_and!; try done;
    by rewrite lookup_insert_ne.
Qed.

Lemma fakeCreate_same_off k o s r s1 :
  objectKey o = k → fakeCreate o s = (r, s1) → same_off k s s1.
Proof.
  intros Hk H. destruct r as [e |].
  - apply fakeCreate_Some in H as ->. apply same_off_refl.
  - apply fakeCreate_None in H as (-> & _ & _). by apply put_same_off.
Qed.

(** X6 (a pass touches one identity).  On the reference store a pass for
    a request changes nothing but the dependent objects stored under the
    identity of that request: the declared resources, the health of the
    store and every Deployment, Service and Ingress of any other identity
    are the same after the pass. *)
Theorem X6_pass_touches_one_identity :
  ∀ (req : Request) (s : Store),
    same_off (Request_NamespacedName req) s
      (final (run FakeClient (Reconcile req) s)).
Proof.
  intros req s.
  pose proof (objectKey_deployment req) as Kd.
  pose proof (objectKey_service req) as Ks.
  pose proof (objectKey_ingress req) as Ki.
  destruct (Reconcile_pass FakeClient req s); simpl in *;
    repeat match goal with
      | H : fakeGet ?k ?s0 = (_, ?s1) |- _ =>
          let F := fresh in
          pose proof (fakeGet_final k s0) as F; rewrite H in F;
          simpl in F; subst s1; clear H
      | H : fakeCreate _ _ = _ |- _ =>
          apply (fakeCreate_same_off (Request_NamespacedName req)) in H;
          [| by rewrite ?Kd, ?Ks, ?Ki]
      end;
    eauto using same_off_refl, same_off_trans.
Qed.

(** The calls of a pass are about the identity of the request. *)
Lemma Reconcile_OpsAt req : OpsAt (Request_NamespacedName req) (Reconcile req).
Proof.
  unfold Reconcile, call, mbind, Prog_mbind, mret, Prog_mret. cbn [Prog_bind].
  constructor; [done |]. intros [e | ms].
  { destruct (IgnoreNotFound (Some e)); constructor. }
  cbn [Prog_bind]. constructor; [apply objectKey_deployment |].
  intros [e |]; [constructor |].
  cbn [Prog_bind]. constructor; [apply objectKey_service |].
  intros [e |]; [constructor |].
  cbn [Prog_bind]. constructor; [apply objectKey_ingress |].
  intros [e |]; constructor.
Qed.

Lemma trace_about {St : Type} (c : Client St) (req : Request) (s : St) :
  Forall (about (Request_NamespacedName req)) (trace (run c (Reconcile req) s)).
Proof.
  destruct (Reconcile_pass c req s); cbn [trace];
    repeat (apply Forall_cons; split;
            [first [reflexivity | apply objectKey_deployment
                   | apply objectKey_service | apply objectKey_ingress] |]);
    apply Forall_nil_2.
Qed.

(** On the reference store the final state is the initial one with the
    successful creations of the trace applied. *)
Lemma final_applied (req : Request) (s : Store) :
  final (run FakeClient (Reconcile req) s) =
  applied (trace (run FakeClient (Reconcile req) s)) s.
Proof.
  destruct (Reconcile_pass FakeClient req s); simpl in *;
    repeat match goal with
      | H : fakeGet ?k ?s0 = (_, ?s1) |- _ =>
          let F := fresh in
          pose proof (fakeGet_final k s0) as F; rewrite H in F;
          simpl in F; subst s1; clear H
      | H : fakeCreate _ _ = (Some _, _) |- _ =>
          apply fakeCreate_Some in H; subst
      | H : fakeCreate _ _ = (None, _) |- _ =>
          apply fakeCreate_None in H as (-> & _ & _)
      end; reflexivity.
Qed.

(** What a call about [k] answers, and what it stores, depends on the
    store at [k] only. *)
Lemma same_at_refl k s : same_at k s s.
Proof. by repeat split. Qed.

Lemma same_at_trans k s1 s2 s3 :
  same_at k s1 s2 → same_at k s2 s3 → same_at k s1 s3.
Proof.
  intros (Hm & Hd & Hs & Hi & Hg & Hc) (Hm' & Hd' & Hs' & Hi' & Hg' & Hc').
  unfold same_at. split_and!; congruence.
Qed.

Lemma put_same_at k o s s' :
  objectKey o = k → same_at k s s' → same_at k (put o s) (put o s').
Proof.
  intros <- (Hm & Hd & Hs & Hi & Hg & Hc).
  destruct o; unfold same_at; simpl; split_and!; try done;
    by rewrite !lookup_insert_eq.
Qed.

Lemma put_other k o s : objectKey o ≠ k → same_at k s (put o s).
Proof.
  intros Hk. destruct o; unfold same_at; simpl; split_and!; try done;
    by rewrite lookup_insert_ne.
Qed.

Lemma FakeClient_same_at k {T : Type} (op : Op T) s s' :
  op_at k op → same_at k s s' →
  (FakeClient T op s).1 = (FakeClient T op s').1 ∧
  same_at k (FakeClient T op s).2 (FakeClient T op s').2.
Proof.
  intros Hop Hsame. destruct op as [key | o | o | o | ms]; simpl in Hop;
    try done; subst k; simpl.
  - pose proof Hsame as (Hm & Hd & Hs & Hi & Hg & Hc).
    unfold fakeGet. rewrite Hg, Hm.
    by destruct (getFault s), (microservices s !! key).
  - assert (stored o s' = stored o s) as Hst.
    { destruct Hsame as (Hm & Hd & Hs & Hi & Hg & Hc).
      unfold stored. destruct o; by rewrite ?Hd, ?Hs, ?Hi. }
    assert (createFault s' = createFault s) as Hcf by apply Hsame.
    unfold fakeCreate. rewrite Hst, Hcf.
    destruct (createFault s (kindOf o)), (stored o s); split; try done.
    by apply put_same_at.
Qed.

Lemma run_same_at k {A : Type} (p : Prog A) :
  OpsAt k p →
  ∀ s s' : Store, same_at k s s' →
    returned (run FakeClient p s) = returned (run FakeClient p s') ∧
    trace (run FakeClient p s) = trace (run FakeClient p s').
Proof.
  induction 1 as [a | T op kont Hop Hk IH]; intros s s' Hsame; [done |].
  cbn [run].
  destruct (FakeClient_same_at k op s s' Hop Hsame) as [Hans Hst].
  destruct (FakeClient T op s) as [r s1], (FakeClient T op s') as [r' s1'].
  simpl in Hans, Hst. subst r'. cbn [returned trace].
  destruct (IH r s1 s1' Hst) as [-> ->]. done.
Qed.

(** Creations under different identities commute. *)
Lemma put_comm o1 o2 s :
  objectKey o1 ≠ objectKey o2 → put o1 (put o2 s) = put o2 (put o1 s).
Proof.
  intros Hk. destruct o1, o2; unfold put, withDeployments, withServices,
    withIngresses; simpl; f_equal; by apply insert_insert_ne.
Qed.

Lemma applied_put k tr o s :
  Forall (about k) tr → objectKey o ≠ k →
  applied tr (put o s) = put o (applied tr s).
Proof.
  intros Htr Hk. revert s.
  induction Htr as [| [c err] tr Hev Htr IH]; intros s; [done |].
  destruct c as [key | o' | o' | o' | ms], err as [e |]; cbn [applied];
    try apply IH.
  rewrite <- IH. f_equal. apply put_comm.
  unfold about in Hev. simpl in Hev. congruence.
Qed.

Lemma applied_comm k1 k2 tr1 tr2 s :
  Forall (about k1) tr1 → Forall (about k2) tr2 → k1 ≠ k2 →
  applied tr2 (applied tr1 s) = applied tr1 (applied tr2 s).
Proof.
  intros H1 H2 Hk. revert s.
  induction H1 as [| [c err] tr1 Hev H1 IH]; intros s; [done |].
  destruct c as [key | o | o | o | ms], err as [e |]; cbn [applied];
    try apply IH.
  rewrite IH. f_equal. apply (applied_put k2); [done |].
  unfold about in Hev. simpl in Hev. congruence.
Qed.

Lemma applied_same_at k1 k2 tr s :
  Forall (about k1) tr → k1 ≠ k2 → same_at k2 s (applied tr s).
Proof.
  intros Htr Hk. revert s.
  induction Htr as [| [c err] tr Hev Htr IH]; intros s;
    [apply same_at_refl |].
  destruct c as [key | o | o | o | ms], err as [e |]; cbn [applied];
    try apply IH.
  eapply same_at_trans; [| apply IH]. apply put_other.
  unfold about in Hev. simpl in Hev. congruence.
Qed.

(** X7 (passes for different identities commute).  On the reference
    store, two passes for requests with different identities can run in
    either order: each returns the same pair and issues the same calls
    with the same answers whether it runs first or second, and the final
    store is the same. *)
Theorem X7_passes_for_distinct_identities_commute (req1 req2 : Request)
    (s : Store) :
  Request_NamespacedName req1 ≠ Request_NamespacedName req2 →
  let a := run FakeClient (Reconcile req1) s in
  let b := run FakeClient (Reconcile req2) (final a) in
  let b' := run FakeClient (Reconcile req2) s in
  let a' := run FakeClient (Reconcile req1) (final b') in
  returned a' = returned a ∧ trace a' = trace a ∧
  returned b' = returned b ∧ trace b' = trace b ∧
  final a' = final b.
Proof.
  intros Hk. cbv zeta.
  pose proof (trace_about FakeClient req1 s) as T1.
  pose proof (trace_about FakeClient req2 s) as T2.
  pose proof (final_applied req1 s) as F1.
  pose proof (final_applied req2 s) as F2.
  set (a := run FakeClient (Reconcile req1) s) in *.
  set (b' := run FakeClient (Reconcile req2) s) in *.
  assert (same_at (Request_NamespacedName req2) s (final a)) as S2.
  { rewrite F1. by eapply applied_same_at. }
  assert (same_at (Request_NamespacedName req1) s (final b')) as S1.
  { rewrite F2. by eapply applied_same_at. }
  destruct (run_same_at _ _ (Reconcile_OpsAt req2) _ _ S2) as [Rb Tb].
  destruct (run_same_at _ _ (Reconcile_OpsAt req1) _ _ S1) as [Ra Ta].
  fold a in Ra, Ta. fold b' in Rb, Tb.
  split_and!; try done.
  rewrite (final_applied req1 (final b')), (final_applied req2 (final a)).
  rewrite <- Ta, <- Tb, F1, F2.
  by eapply applied_comm.
Qed.

Lemma X7_passes_for_distinct_identities_commute_witness :
  let a := run FakeClient (Reconcile foo_req) foo_bar_store in
  let b := run FakeClient (Reconcile bar_req) (final a) in
  let b' := run FakeClient (Reconcile bar_req) foo_bar_store in
  let a' := run FakeClient (Reconcile foo_req) (final b') in
  returned a' = returned a ∧ trace a' = trace a ∧
  returned b' = returned b ∧ trace b' = trace b ∧
  final a' = final b.
Proof.
  apply (X7_passes_for_distinct_identities_commute foo_req bar_req
           foo_bar_store).
  discriminate.
Defined.

(** X8 (the deployment-only stage never asks for a retry).  For every
    client, state and request the earlier stage returns the zero [Result]
    with a nil error.  It issues the [Get] and, when the fetch succeeded,
    one creation and no more: a Deployment without pull secret reference
    whose selector selects its own pods; the error of that creation is
    dropped. *)
Theorem X8_stage1_never_returns_error :
  ∀ (St : Type) (c : Client St) (req : Request) (s : St),
    let r := run c (Stage1.Reconcile req) s in
    returned r = (Result_zero, None) ∧
    ((∃ e : Error,
        trace r = [(CallGet (Request_NamespacedName req), Some e)]) ∨
     (∃ (ms : MicroService) (err : option Error),
        trace r =
          [(CallGet (Request_NamespacedName req), None);
           (CallCreate (ObjDeployment (Stage1.deployment req ms)), err)] ∧
        PodSpec_ImagePullSecrets (podSpecOf (Stage1.deployment req ms)) = [] ∧
        deployment_selects_own_pods (Stage1.deployment req ms) = true)).
Proof.
  intros St c req s.
  unfold Stage1.Reconcile, call, mbind, Prog_mbind, mret, Prog_mret. simpl.
  answer c. destruct r as [e | ms].
  - unfold IgnoreNotFound. destruct (IsNotFound (Some e)); simpl;
      split; eauto.
  - simpl. answer c. split; [by destruct r |]. right. exists ms, r.
    split_and!; [by destruct r | done | apply podLabels_selects].
Qed.

(** Once a pass has left the store unchanged, so does any number of
    passes. *)
Lemma run_passes_fixed {St : Type} (c : Client St) (req : Request) (s : St)
    (n : nat) :
  final (run c (Reconcile req) s) = s → (run_passes c req n s).2 = s.
Proof.
  intros Hfix. induction n as [| n IH]; [done |].
  cbn [run_passes]. rewrite Hfix.
  by destruct (run_passes c req n s).
Qed.

(** X9 (the store settles after one pass).  On the reference store,
    healthy or not and whatever it holds, the state a pass leaves is not
    changed by any number of further passes for the same request. *)
Theorem X9_store_settles_after_one_pass :
  ∀ (req : Request) (s : Store) (n : nat),
    (run_passes FakeClient req (S n) s).2 =
    final (run FakeClient (Reconcile req) s).
Proof.
  intros req s n. cbn [run_passes].
  set (s1 := final (run FakeClient (Reconcile req) s)).
  enough (final (run FakeClient (Reconcile req) s1) = s1) as Hfix.
  { pose proof (run_passes_fixed FakeClient req s1 n Hfix) as Hn.
    by destruct (run_passes FakeClient req n s1). }
  subst s1.
  destruct (Reconcile_pass FakeClient req s) as
    [e s1 Hg | ms e s1 s2 Hg Hd | ms e s1 s2 s3 Hg Hd Hs
    | ms e s1 s2 s3 s4 Hg Hd Hs Hi | ms s1 s2 s3 s4 Hg Hd Hs Hi];
    cbn [final]; simpl in Hg.
  - pose proof (fakeGet_final (Request_NamespacedName req) s) as F.
    rewrite Hg in F. simpl in F. subst s1.
    destruct (Reconcile_pass FakeClient req s); simpl in *; congruence.
  - pose proof (fakeGet_final (Request_NamespacedName req) s) as F.
    rewrite Hg in F. simpl in F. subst s1. simpl in Hd.
    pose proof (fakeCreate_Some _ _ _ _ Hd) as ->.
    destruct (Reconcile_pass FakeClient req s); simpl in *; congruence.
  - apply fakeGet_inr in Hg as (-> & Hgf & Hms). simpl in Hd, Hs.
    apply fakeCreate_None in Hd as (-> & Hcf & _).
    apply fakeCreate_Some in Hs as ->.
    rewrite (run_deployment_present _ req ms); [done .. |].
    simpl. rewrite objectKey_deployment, lookup_insert_eq. eauto.
  - apply fakeGet_inr in Hg as (-> & Hgf & Hms). simpl in Hd, Hs, Hi.
    apply fakeCreate_None in Hd as (-> & Hcf & _).
    apply fakeCreate_None in Hs as (-> & _ & _).
    apply fakeCreate_Some in Hi as ->.
    rewrite (run_deployment_present _ req ms); [done .. |].
    simpl. rewrite objectKey_deployment, lookup_insert_eq. eauto.
  - apply fakeGet_inr in Hg as (-> & Hgf & Hms). simpl in Hd, Hs, Hi.
    apply fakeCreate_None in Hd as (-> & Hcf & _).
    apply fakeCreate_None in Hs as (-> & _ & _).
    apply fakeCreate_None in Hi as (-> & _ & _).
    rewrite (run_deployment_present _ req ms); [done .. |].
    simpl. rewrite objectKey_deployment, lookup_insert_eq. eauto.
Qed.
